(** * GameContext: the Hathora session context of the web client

    A shallow embedding of [examples/poker/client/web/src/context/GameContext.tsx]
    (the React provider [HathoraContextProvider]) and of the properties its
    specification states about it.

    Modelling conventions.
    - The provider's [useState]/[useSessionStorage]/[useRef] cells are the
      fields of the record [Ctx]; a setter call is an immediate update of
      the field, and every handler runs against the latest committed render.
    - The collaborators (the Hathora client, the connection handles, the
      lookup service, the toast library, the console) are not part of the
      file; every call made to them is appended to a trace of [Effect]s.
    - An [async] method is cut at its [await]s: the part before the await
      issues the request, the part after it receives the way the awaited
      promise settled as an [Outcome]. Where the part after the await
      touches no cell (the game actions, the create-room request), the
      method is run in one piece with the outcome as an argument.
    - The transport keeps the callbacks of every connection object it has
      made and may fire them at any time, also after [disconnect] was
      called on the object or another [connect] replaced it.
    - Effects ([useEffect]) run after the handler of each event, with the
      cells before the handler as the previous render.
    - A JavaScript object used as a dictionary is a [gmap] of its own
      entries; what a plain object inherits from [Object.prototype] is the
      table [Object_prototype], and [getUserName_js] reads the name mapping
      through both. Objects compared by a dependency array are compared by
      their content.
    - [HathoraClient.getUserFromToken] is a total function of the token. *)

From stdpp Require Import base option list strings gmap.

Open Scope string_scope.
Open Scope list_scope.
Open Scope nat_scope.

(** ** Data *)

(** [UserData] of [api/base]: the fields the provider reads. *)
Record UserData := mkUserData { id : string; name : string }.

(** [ConnectionFailure] of [.hathora/failures]: only [message] is read. *)
Record ConnectionFailure := mkFailure { message : string }.

(** [Response] of [api/base]: [response.type === "error"] carries
    [response.error]. *)
Inductive Response :=
| Response_ok
| Response_error (error : string).

(** [UpdateArgs["state"]]: whose turn it is ([playerState?.turn]), the
    players of the lobby, and the remaining game-specific payload. *)
Record StateSnapshot := mkSnapshot {
  turn : option string;
  players : list string;
  payload : nat
}.

Definition Card := nat.

(** [IInitializeRequest.default()]. *)
Inductive IInitializeRequest := IInitializeRequest_default.

(** A [HathoraConnection] object, by identity. *)
Definition Handle := nat.

(** How an awaited promise settles. *)
Inductive Outcome (A : Type) :=
| Resolved (a : A)
| Rejected (e : string).
Arguments Resolved {A} a.
Arguments Rejected {A} e.

#[global] Instance UserData_eq_dec : EqDecision UserData.
Proof. solve_decision. Defined.
#[global] Instance ConnectionFailure_eq_dec : EqDecision ConnectionFailure.
Proof. solve_decision. Defined.
#[global] Instance StateSnapshot_eq_dec : EqDecision StateSnapshot.
Proof. solve_decision. Defined.

(** JavaScript truthiness of a [string | undefined]. *)
Definition truthy (s : option string) : bool :=
  match s with
  | Some s => negb (String.eqb s "")
  | None => false
  end.

(** ** Calls made to the collaborators *)

Inductive Effect :=
| Call_loginAnonymous
| Call_connect (token : option string) (stateId : string) (h : Handle)
| Call_disconnect (h : Handle)
| Call_create (token : string) (req : IInitializeRequest)
| Call_joinGame (h : Handle)
| Call_startGame (h : Handle)
| Call_playCard (h : Handle) (card : Card)
| Call_drawCard (h : Handle)
| Call_lookupUser (userId : string)
| Toast_error (msg : string)
| Toast_success (msg : string)
| Toast_info (msg : string)
| Console_error (e : string).

Definition is_toast (e : Effect) : bool :=
  match e with
  | Toast_error _ | Toast_success _ | Toast_info _ => true
  | _ => false
  end.

Definition is_loginAnonymous (e : Effect) : bool :=
  match e with Call_loginAnonymous => true | _ => false end.

Definition toasts (t : list Effect) : list Effect := List.filter is_toast t.
Definition login_requests (t : list Effect) : nat :=
  length (List.filter is_loginAnonymous t).

(** ** The provider's cells *)

Record Ctx := mkCtx {
  token : option string;                       (* useSessionStorage(appId) *)
  connection : option Handle;
  playerState : option StateSnapshot;
  events : option (list string);
  connectionError : option ConnectionFailure;
  connecting : option bool;
  loggingIn : option bool;
  playerNameMapping : gmap string UserData;    (* useSessionStorage(appId_player_mapping, {}) *)
  user : option UserData;
  isLoginIn : bool                             (* useRef(false) *)
}.

Definition setToken (v : option string) (c : Ctx) : Ctx :=
  mkCtx v (connection c) (playerState c) (events c) (connectionError c)
        (connecting c) (loggingIn c) (playerNameMapping c) (user c) (isLoginIn c).
Definition setConnection (v : option Handle) (c : Ctx) : Ctx :=
  mkCtx (token c) v (playerState c) (events c) (connectionError c)
        (connecting c) (loggingIn c) (playerNameMapping c) (user c) (isLoginIn c).
Definition setPlayerState (v : option StateSnapshot) (c : Ctx) : Ctx :=
  mkCtx (token c) (connection c) v (events c) (connectionError c)
        (connecting c) (loggingIn c) (playerNameMapping c) (user c) (isLoginIn c).
Definition setEvents (v : option (list string)) (c : Ctx) : Ctx :=
  mkCtx (token c) (connection c) (playerState c) v (connectionError c)
        (connecting c) (loggingIn c) (playerNameMapping c) (user c) (isLoginIn c).
Definition setConnectionError (v : option ConnectionFailure) (c : Ctx) : Ctx :=
  mkCtx (token c) (connection c) (playerState c) (events c) v
        (connecting c) (loggingIn c) (playerNameMapping c) (user c) (isLoginIn c).
Definition setConnecting (v : option bool) (c : Ctx) : Ctx :=
  mkCtx (token c) (connection c) (playerState c) (events c) (connectionError c)
        v (loggingIn c) (playerNameMapping c) (user c) (isLoginIn c).
Definition setLoggingIn (v : option bool) (c : Ctx) : Ctx :=
  mkCtx (token c) (connection c) (playerState c) (events c) (connectionError c)
        (connecting c) v (playerNameMapping c) (user c) (isLoginIn c).
(** The setter of the name mapping takes an updater [(current) => ...]. *)
Definition setPlayerNameMapping
    (f : gmap string UserData → gmap string UserData) (c : Ctx) : Ctx :=
  mkCtx (token c) (connection c) (playerState c) (events c) (connectionError c)
        (connecting c) (loggingIn c) (f (playerNameMapping c)) (user c) (isLoginIn c).
Definition setUserInfo (v : option UserData) (c : Ctx) : Ctx :=
  mkCtx (token c) (connection c) (playerState c) (events c) (connectionError c)
        (connecting c) (loggingIn c) (playerNameMapping c) v (isLoginIn c).
Definition set_isLoginIn (v : bool) (c : Ctx) : Ctx :=
  mkCtx (token c) (connection c) (playerState c) (events c) (connectionError c)
        (connecting c) (loggingIn c) (playerNameMapping c) (user c) v.

(** ** The transport and the event loop around the provider *)

(** The two closures [client.connect] is given. *)
Record Callbacks := mkCallbacks {
  onUpdate : StateSnapshot → Ctx → Ctx;
  onError : ConnectionFailure → Ctx → Ctx
}.

(** Who is waiting for a [loginAnonymous] promise: [login] called from the
    UI, or [login] called inside [createGame]. *)
Inductive LoginCaller :=
| from_ui
| from_createGame (ocreate : Outcome string).

Record Sys := mkSys {
  ctx : Ctx;
  trace : list Effect;                 (* collaborator calls, oldest first *)
  nextHandle : Handle;                 (* identity of the next connection object *)
  registered : gmap Handle Callbacks;  (* callbacks held by the transport *)
  loginsInFlight : list LoginCaller;   (* pending [await client.loginAnonymous()] *)
  lookupsInFlight : list string        (* pending [lookupUser(id).then(...)] *)
}.

(** State passing over [Sys]. *)
Definition M (A : Type) : Type := Sys → A * Sys.

#[global] Instance M_ret : MRet M := λ A a s, (a, s).
#[global] Instance M_bind : MBind M :=
  λ A B k m s, let '(a, s') := m s in k a s'.

Definition get : M Ctx := λ s, (ctx s, s).
Definition get_sys : M Sys := λ s, (s, s).
Definition modify (f : Ctx → Ctx) : M unit :=
  λ s, (tt, mkSys (f (ctx s)) (trace s) (nextHandle s) (registered s)
                  (loginsInFlight s) (lookupsInFlight s)).
Definition emit (e : Effect) : M unit :=
  λ s, (tt, mkSys (ctx s) (trace s ++ [e]) (nextHandle s) (registered s)
                  (loginsInFlight s) (lookupsInFlight s)).

(** [client.connect(token, stateId, onUpdate, onError)]: the transport
    makes a new connection object and keeps the two callbacks for it. *)
Definition client_connect (tok : option string) (stateId : string)
    (cbs : Callbacks) : M Handle :=
  λ s, let h := nextHandle s in
       (h, mkSys (ctx s) (trace s ++ [Call_connect tok stateId h]) (S h)
                 (<[h := cbs]> (registered s))
                 (loginsInFlight s) (lookupsInFlight s)).

Definition push_login (who : LoginCaller) : M unit :=
  λ s, (tt, mkSys (ctx s) (trace s) (nextHandle s) (registered s)
                  (who :: loginsInFlight s) (lookupsInFlight s)).
Definition pop_login : M unit :=
  λ s, (tt, mkSys (ctx s) (trace s) (nextHandle s) (registered s)
                  (tail (loginsInFlight s)) (lookupsInFlight s)).
Definition push_lookup (userId : string) : M unit :=
  λ s, (tt, mkSys (ctx s) (trace s) (nextHandle s) (registered s)
                  (loginsInFlight s) (userId :: lookupsInFlight s)).

(** Removes the first occurrence of [x]. *)
Fixpoint remove_first (x : string) (l : list string) : list string :=
  match l with
  | [] => []
  | y :: l' => if decide (x = y) then l' else y :: remove_first x l'
  end.
Definition pop_lookup (userId : string) : M unit :=
  λ s, (tt, mkSys (ctx s) (trace s) (nextHandle s) (registered s)
                  (loginsInFlight s) (remove_first userId (lookupsInFlight s))).

(** Unfolds the state-passing plumbing. *)
Ltac munfold :=
  unfold mbind, M_bind, mret, M_ret, get, get_sys, modify, emit,
    push_login, pop_login, push_lookup, pop_lookup, client_connect in *.

(** ** Sample data for the examples *)

(** A decoder: the id is the token, the name is derived from it. *)
Definition sample_decode (t : string) : UserData := mkUserData t ("user-" +:+ t).

(** Snapshots and a failure. *)
Definition snapshot_A : StateSnapshot := mkSnapshot (Some "A") ["A"; "B"] 0.
Definition snapshot_B : StateSnapshot := mkSnapshot (Some "B") ["A"; "B"] 0.
Definition failure_X : ConnectionFailure := mkFailure "connection lost".

(** What can happen to the provider: a method is called by the UI, a
    pending promise settles, or the transport fires a callback. For the
    methods that await an action, the event says how the action settles. *)
Inductive Event :=
| Ev_login
| Ev_loginAnonymous_settles (o : Outcome string)
| Ev_connect (stateId : string)
| Ev_disconnect
| Ev_createGame (ocreate : Outcome string)
| Ev_joinGame (gameId : string) (ojoin : Outcome Response)
| Ev_startGame (o : Outcome Response)
| Ev_playCard (card : Card) (o : Outcome Response)
| Ev_drawCard (o : Outcome Response)
| Ev_endGame
| Ev_getUserName (userId : string)
| Ev_lookupUser_settles (userId : string) (o : Outcome UserData)
| Ev_push_update (h : Handle) (state : StateSnapshot)
| Ev_push_failure (h : Handle) (e : ConnectionFailure).

(** ** The provider *)

Section Provider.

(** [HathoraClient.getUserFromToken]: decodes the token locally. *)
Variable getUserFromToken : string → UserData.

(** [HandleConnection]: awaits the response of an action and shows a
    failure result as an error toast. *)
Definition HandleConnection (prom : Outcome Response) : M (Outcome Response) :=
  match prom with
  | Resolved (Response_error error) =>
      emit (Toast_error error);; mret prom
  | Resolved Response_ok => mret prom
  | Rejected e => mret (Rejected e)
  end.

(** [login], up to [await client.loginAnonymous()]. Answers whether the
    guard let the call in. *)
Definition login_start (who : LoginCaller) : M bool :=
  c ← get;
  if isLoginIn c then mret false
  else
    modify (setLoggingIn (Some true));;
    modify (set_isLoginIn true);;
    emit Call_loginAnonymous;;
    push_login who;;
    mret true.

(** [login], from the moment the awaited promise settles: the rest of the
    [try], the [catch] and the [finally]. *)
Definition login_settle (o : Outcome string) : M (Outcome (option string)) :=
  pop_login;;
  r ← match o with
      | Resolved token' =>
          (if truthy (Some token') then
             let user' := getUserFromToken token' in
             modify (setUserInfo (Some user'));;
             modify (setPlayerNameMapping (λ current, <[id user' := user']> current))
           else mret tt);;
          modify (setToken (Some token'));;
          mret (Some token')
      | Rejected e =>
          emit (Console_error e);; mret None
      end;
  modify (set_isLoginIn false);;
  modify (setLoggingIn (Some false));;
  mret (Resolved r).

(** [login] run without interleaving: [o] is how the request settles, if
    one is issued. *)
Definition login_as (who : LoginCaller) (o : Outcome string)
    : M (Outcome (option string)) :=
  entered ← login_start who;
  if (entered : bool) then login_settle o else mret (Resolved None).

Definition login : Outcome string → M (Outcome (option string)) :=
  login_as from_ui.

(** The two closures [connect] hands to the transport; they are the
    same for every call. *)
Definition connect_callbacks : Callbacks :=
  mkCallbacks
    (λ state c, setConnecting (Some false) (setPlayerState (Some state) c))
    (λ e c, setConnecting (Some false) (setConnectionError (Some e) c)).

Definition connect (stateId : string) : M Handle :=
  modify (setConnecting (Some true));;
  c ← get;
  connection' ← client_connect (token c) stateId connect_callbacks;
  modify (setConnection (Some connection'));;
  mret connection'.

Definition disconnect : M unit :=
  c ← get;
  match connection c with
  | Some h =>
      emit (Call_disconnect h);;
      modify (setConnection None);;
      modify (setPlayerState None);;
      modify (setEvents None);;
      modify (setConnectionError None)
  | None => mret tt
  end.

(** [return await client.create(token, IInitializeRequest.default())]. *)
Definition client_create (t : string) (o : Outcome string)
    : M (Outcome (option string)) :=
  emit (Call_create t IInitializeRequest_default);;
  mret (match o with
        | Resolved gameId => Resolved (Some gameId)
        | Rejected e => Rejected e
        end).

(** [createGame] after [await login()]. *)
Definition createGame_resume (r : Outcome (option string)) (ocreate : Outcome string)
    : M (Outcome (option string)) :=
  match r with
  | Resolved (Some token') =>
      if truthy (Some token') then client_create token' ocreate
      else mret (Resolved None)
  | Resolved None => mret (Resolved None)
  | Rejected e => mret (Rejected e)
  end.

(** [createGame] run without interleaving: [ologin] is how the login
    request settles if one is issued, [ocreate] how the create-room
    request does. *)
Definition createGame (ologin ocreate : Outcome string)
    : M (Outcome (option string)) :=
  c ← get;
  match token c with
  | Some t =>
      if truthy (Some t) then client_create t ocreate
      else r ← login_as (from_createGame ocreate) ologin; createGame_resume r ocreate
  | None => r ← login_as (from_createGame ocreate) ologin; createGame_resume r ocreate
  end.

(** [createGame], up to its first [await]. *)
Definition createGame_start (ocreate : Outcome string) : M unit :=
  c ← get;
  match token c with
  | Some t =>
      if truthy (Some t) then client_create t ocreate;; mret tt
      else login_start (from_createGame ocreate);; mret tt
  | None => login_start (from_createGame ocreate);; mret tt
  end.

(** [joinGame]: [ojoin] is how [connection.joinGame({})] settles. *)
Definition joinGame (gameId : string) (ojoin : Outcome Response)
    : M (Outcome unit) :=
  connection' ← connect gameId;
  emit (Call_joinGame connection');;
  mret (match ojoin with
        | Resolved _ => Resolved tt
        | Rejected e => Rejected e
        end).

Definition void (r : Outcome Response) : Outcome unit :=
  match r with
  | Resolved _ => Resolved tt
  | Rejected e => Rejected e
  end.

Definition startGame (o : Outcome Response) : M (Outcome unit) :=
  c ← get;
  match connection c with
  | Some h => emit (Call_startGame h);; r ← HandleConnection o; mret (void r)
  | None => mret (Resolved tt)
  end.

Definition playCard (card : Card) (o : Outcome Response) : M (Outcome unit) :=
  c ← get;
  match connection c with
  | Some h => emit (Call_playCard h card);; r ← HandleConnection o; mret (void r)
  | None => mret (Resolved tt)
  end.

Definition drawCard (o : Outcome Response) : M (Outcome unit) :=
  c ← get;
  match connection c with
  | Some h => emit (Call_drawCard h);; r ← HandleConnection o; mret (void r)
  | None => mret (Resolved tt)
  end.

Definition endGame : M unit :=
  modify (setPlayerState None);;
  c ← get;
  match connection c with
  | Some h => emit (Call_disconnect h)
  | None => mret tt
  end.

(** [getUserName] on the own entries of the name mapping. This is what
    the source function does for every id that is not the name of a
    property plain objects inherit ([getUserName_js] below reads the
    mapping as JavaScript does, and [getUserName_js_own] relates the
    two). *)
Definition getUserName (userId : string) : M string :=
  c ← get;
  match playerNameMapping c !! userId with
  | Some u => mret (name u)
  | None =>
      emit (Call_lookupUser userId);;
      push_lookup userId;;
      mret userId
  end.

(** The [.then((response) => ...)] of [getUserName]. *)
Definition getUserName_then (userId : string) (response : UserData) : M unit :=
  modify (setPlayerNameMapping (λ curr, <[userId := response]> curr)).

(** What the plain object [playerNameMapping] inherits from
    [Object.prototype]. For the name of an inherited property the result
    is the [name] of the inherited value, which is truthy: [Object] for
    [constructor], the function of that name for the methods, and no name
    ([undefined]) for [__proto__], whose value is [Object.prototype]
    itself. *)
Definition Object_prototype (key : string) : option (option string) :=
  if decide (key = "constructor") then Some (Some "Object")
  else if decide (key = "__proto__") then Some None
  else if bool_decide
            (key ∈ ["toString"; "toLocaleString"; "valueOf"; "hasOwnProperty";
                    "isPrototypeOf"; "propertyIsEnumerable";
                    "__defineGetter__"; "__defineSetter__";
                    "__lookupGetter__"; "__lookupSetter__"])
       then Some (Some key)
  else None.

(** [getUserName] with [playerNameMapping[userId]] read as JavaScript
    reads a property of a plain object: the own entry if there is one,
    otherwise what the object inherits. An inherited value passes
    [Boolean(...)], so its [name] is returned ([None] is [undefined]) and
    no lookup is issued. *)
Definition getUserName_js (userId : string) : M (option string) :=
  c ← get;
  match playerNameMapping c !! userId with
  | Some u => mret (Some (name u))
  | None =>
      match Object_prototype userId with
      | Some inherited_name => mret inherited_name
      | None =>
          emit (Call_lookupUser userId);;
          push_lookup userId;;
          mret (Some userId)
      end
  end.

(** *** Effects *)

(** [useEffect(body, [dep])]: the body runs after the first render and
    after every render whose dependency differs from the previous one. *)
Definition useEffect {D} `{EqDecision D} (prev : option D) (cur : D)
    (body : M unit) : M unit :=
  match prev with
  | None => body
  | Some d => if decide (d = cur) then mret tt else body
  end.

Definition connectionError_effect (c : Ctx) : M unit :=
  match connectionError c with
  | Some e => emit (Toast_error (message e))
  | None => mret tt
  end.

Definition token_effect (c : Ctx) : M unit :=
  match token c with
  | Some t =>
      if truthy (Some t) then modify (setUserInfo (Some (getUserFromToken t)))
      else mret tt
  | None => mret tt
  end.

(** [playerState?.turn]. *)
Definition turn_of (p : option StateSnapshot) : option string := p ≫= turn.

Definition turn_effect (c : Ctx) : M unit :=
  match turn_of (playerState c) with
  | Some t =>
      if truthy (Some t) then
        if decide (Some t = id <$> user c) then
          emit (Toast_success "It's you turn")
        else
          n ← getUserName t;
          emit (Toast_info ("it is " +:+ n +:+ "'s turn"))
      else mret tt
  | None => mret tt
  end.

(** The effects of one committed render, in source order. [prev] is the
    previous render ([None] at mount); the bodies close over the values
    of the render being committed. *)
Definition commit (prev : option Ctx) : M unit :=
  c ← get;
  useEffect (connectionError <$> prev) (connectionError c) (connectionError_effect c);;
  useEffect (token <$> prev) (token c) (token_effect c);;
  useEffect (turn_of ∘ playerState <$> prev) (turn_of (playerState c)) (turn_effect c).

(** *** The event loop *)

Definition handle (ev : Event) : M unit :=
  match ev with
  | Ev_login => login_start from_ui;; mret tt
  | Ev_loginAnonymous_settles o =>
      s ← get_sys;
      match loginsInFlight s with
      | [] => mret tt
      | who :: _ =>
          r ← login_settle o;
          match who with
          | from_ui => mret tt
          | from_createGame ocreate => createGame_resume r ocreate;; mret tt
          end
      end
  | Ev_connect stateId => connect stateId;; mret tt
  | Ev_disconnect => disconnect
  | Ev_createGame ocreate => createGame_start ocreate
  | Ev_joinGame gameId ojoin => joinGame gameId ojoin;; mret tt
  | Ev_startGame o => startGame o;; mret tt
  | Ev_playCard card o => playCard card o;; mret tt
  | Ev_drawCard o => drawCard o;; mret tt
  | Ev_endGame => endGame
  | Ev_getUserName userId => getUserName userId;; mret tt
  | Ev_lookupUser_settles userId o =>
      s ← get_sys;
      if decide (userId ∈ lookupsInFlight s) then
        pop_lookup userId;;
        match o with
        | Resolved response => getUserName_then userId response
        | Rejected _ => mret tt
        end
      else mret tt
  | Ev_push_update h state =>
      s ← get_sys;
      match registered s !! h with
      | Some cbs => modify (onUpdate cbs state)
      | None => mret tt
      end
  | Ev_push_failure h e =>
      s ← get_sys;
      match registered s !! h with
      | Some cbs => modify (onError cbs e)
      | None => mret tt
      end
  end.

(** One turn of the event loop: the handler, then the render it causes
    and the effects of that render. *)
Definition step (ev : Event) (s : Sys) : Sys :=
  snd ((handle ev;; commit (Some (ctx s))) s).

Definition run (evs : list Event) (s : Sys) : Sys :=
  foldl (λ s ev, step ev s) s evs.

(** The provider before its first render: the token and the name mapping
    come from session storage (the mapping defaults to [{}]). *)
Definition initial (stored_token : option string)
    (stored_mapping : option (gmap string UserData)) : Sys :=
  mkSys (mkCtx stored_token None None None None None None
               (default ∅ stored_mapping) None false)
        [] 0 ∅ [] [].

(** The first render and its effects. *)
Definition mount (stored_token : option string)
    (stored_mapping : option (gmap string UserData)) : Sys :=
  snd (commit None (initial stored_token stored_mapping)).

(** The states the provider can be in. *)
Definition reachable (s : Sys) : Prop :=
  ∃ stored_token stored_mapping evs,
    s = run evs (mount stored_token stored_mapping).

(** *** The lobby

    [components/Lobby.tsx] reads the context: it counts the players of the
    snapshot, disables the start button below two players, and shows one
    row per player with [getUserName(player.id)], starred for the current
    user. A player is represented by its [id], the only field read; an
    absent [players] array renders like an empty one; a label [None] is
    the [undefined] that renders as nothing. *)

(** [playerState?.players?.length ?? 0]. *)
Definition playerCount (c : Ctx) : nat :=
  match playerState c with
  | Some st => length (players st)
  | None => 0
  end.

Definition disableStartGame (c : Ctx) : bool := playerCount c <? 2.

(** One row of "Players in Lobby": the star and the shown name. *)
Record LobbyRow := mkRow { star : bool; label : option string }.

(** [playerState?.players?.map((player) => ...)]. *)
Fixpoint Lobby_rows (me : option UserData) (ps : list string) : M (list LobbyRow) :=
  match ps with
  | [] => mret []
  | p :: ps' =>
      n ← getUserName_js p;
      rest ← Lobby_rows me ps';
      mret (mkRow (bool_decide (Some p = id <$> me)) n :: rest)
  end.

(** One render of the lobby: the rows and whether start is disabled. *)
Definition Lobby : M (list LobbyRow * bool) :=
  c ← get;
  rows ← Lobby_rows (user c)
            (match playerState c with Some st => players st | None => [] end);
  mret (rows, disableStartGame c).

(** *** Vocabulary of the statements *)

(** [s] with [tr] appended to its trace. *)
Definition append_trace (s : Sys) (tr : list Effect) : Sys :=
  mkSys (ctx s) (trace s ++ tr) (nextHandle s) (registered s)
        (loginsInFlight s) (lookupsInFlight s).

(** The toast [HandleConnection] shows for an awaited response. *)
Definition failure_toast (o : Outcome Response) : list Effect :=
  match o with
  | Resolved (Response_error error) => [Toast_error error]
  | _ => []
  end.

(** The game actions. *)
Definition is_action (ev : Event) : bool :=
  match ev with
  | Ev_startGame _ | Ev_playCard _ _ | Ev_drawCard _ => true
  | _ => false
  end.

(** The transport firing a callback. *)
Definition is_push (ev : Event) : bool :=
  match ev with
  | Ev_push_update _ _ | Ev_push_failure _ _ => true
  | _ => false
  end.

(** The calls that may start a login: [login] and [createGame]. *)
Definition is_login_call (ev : Event) : bool :=
  match ev with
  | Ev_login | Ev_createGame _ => true
  | _ => false
  end.

(** The exposed [loggingIn] flag is true exactly while the guard is set. *)
Definition loggingIn_inv (s : Sys) : Prop :=
  bool_decide (loggingIn (ctx s) = Some true) = isLoginIn (ctx s).

(** The stored handle is the connection object made last. *)
Definition latest_handle_inv (s : Sys) : Prop :=
  ∀ h, connection (ctx s) = Some h → nextHandle s = S h.

(** With a truthy token stored, [user] is the record decoded from it. *)
Definition user_token_inv (s : Sys) : Prop :=
  ∀ t, token (ctx s) = Some t → truthy (Some t) = true →
       user (ctx s) = Some (getUserFromToken t).

(** *** Invariants of the event loop *)

(** The transport holds, for every connection object made so far, the
    closures of [connect], and nothing for the others. *)
Definition callbacks_inv (s : Sys) : Prop :=
  ∀ h, registered s !! h =
       if decide (h < nextHandle s) then Some connect_callbacks else None.

(** The ref [isLoginIn] is set exactly while one [loginAnonymous] promise
    is pending. *)
Definition login_inv (s : Sys) : Prop :=
  if isLoginIn (ctx s) then ∃ who, loginsInFlight s = [who]
  else loginsInFlight s = [].

Definition inv (s : Sys) : Prop := callbacks_inv s ∧ login_inv s.

(** What a render may change: the [user] cell, the pending lookups, and
    the trace, which grows by calls other than [loginAnonymous]. *)
Definition render_frame (s s' : Sys) : Prop :=
  nextHandle s' = nextHandle s ∧
  registered s' = registered s ∧
  loginsInFlight s' = loginsInFlight s ∧
  (∃ u, ctx s' = setUserInfo u (ctx s)) ∧
  ∃ tr, trace s' = trace s ++ tr ∧ login_requests tr = 0.

(** The event that settles a pending [loginAnonymous] promise. *)
Definition is_login_settle (ev : Event) : bool :=
  match ev with Ev_loginAnonymous_settles _ => true | _ => false end.


(** * Properties *)

(** ** Effects of a render *)

Lemma useEffect_noop {D} `{EqDecision D} (prev : option D) (cur : D)
    (body : M unit) (s : Sys) :
  prev = Some cur ∨ body s = (tt, s) →
  useEffect prev cur body s = (tt, s).
Proof.
  unfold useEffect. intros [->|Hb].
  - by rewrite decide_True.
  - destruct prev; [case_decide|]; done.
Qed.

Lemma turn_effect_falsy (c : Ctx) (s : Sys) :
  truthy (turn_of (playerState c)) = false → turn_effect c s = (tt, s).
Proof.
  unfold turn_effect. intros Hf.
  destruct (turn_of (playerState c)); [by rewrite Hf|done].
Qed.

(** A render runs no effect when the token is the one of the previous
    render, the connection error is the previous one or absent, and the
    turn is the previous one or falsy. *)
Lemma commit_quiet (c : Ctx) (s : Sys) :
  connectionError c = connectionError (ctx s) ∨ connectionError (ctx s) = None →
  token c = token (ctx s) →
  turn_of (playerState c) = turn_of (playerState (ctx s))
    ∨ truthy (turn_of (playerState (ctx s))) = false →
  commit (Some c) s = (tt, s).
Proof.
  intros He Ht Hp. unfold commit. munfold.
  rewrite (useEffect_noop _ _ _ s); cycle 1.
  { destruct He as [He|He]; [left; simpl; by rewrite He|right].
    unfold connectionError_effect. by rewrite He. }
  rewrite (useEffect_noop _ _ _ s); cycle 1.
  { left. simpl. by rewrite Ht. }
  apply useEffect_noop.
  destruct Hp as [Hp|Hp]; [left; simpl; by rewrite Hp|right].
  by apply turn_effect_falsy.
Qed.

Lemma step_quiet (ev : Event) (s s' : Sys) :
  handle ev s = (tt, s') →
  connectionError (ctx s) = connectionError (ctx s') ∨ connectionError (ctx s') = None →
  token (ctx s) = token (ctx s') →
  turn_of (playerState (ctx s)) = turn_of (playerState (ctx s'))
    ∨ truthy (turn_of (playerState (ctx s'))) = false →
  step ev s = s'.
Proof.
  intros Hh He Ht Hp. unfold step.
  unfold mbind at 1, M_bind at 1. rewrite Hh.
  by rewrite commit_quiet.
Qed.

Lemma setUserInfo_id (c : Ctx) : setUserInfo (user c) c = c.
Proof. by destruct c. Qed.

Lemma login_requests_app (t1 t2 : list Effect) :
  login_requests (t1 ++ t2) = login_requests t1 + login_requests t2.
Proof. unfold login_requests. by rewrite List.filter_app, length_app. Qed.

Lemma toasts_app (t1 t2 : list Effect) : toasts (t1 ++ t2) = toasts t1 ++ toasts t2.
Proof. apply List.filter_app. Qed.

(** [render_frame] is a preorder, and the effects stay inside it. *)
Lemma render_frame_refl (s : Sys) : render_frame s s.
Proof.
  repeat split; try done.
  - exists (user (ctx s)). by rewrite setUserInfo_id.
  - exists []. by rewrite app_nil_r.
Qed.

Lemma render_frame_trans (s1 s2 s3 : Sys) :
  render_frame s1 s2 → render_frame s2 s3 → render_frame s1 s3.
Proof.
  intros (Hn1 & Hr1 & Hl1 & [u1 Hc1] & tr1 & Ht1 & Hq1)
         (Hn2 & Hr2 & Hl2 & [u2 Hc2] & tr2 & Ht2 & Hq2).
  repeat split; try congruence.
  - exists u2. rewrite Hc2, Hc1. by destruct (ctx s1).
  - exists (tr1 ++ tr2). rewrite Ht2, Ht1, <-app_assoc, login_requests_app.
    split; [done|lia].
Qed.

Lemma render_frame_bind {A B} (m : M A) (k : A → M B) (s : Sys) :
  render_frame s (snd (m s)) →
  (∀ a s1, render_frame s1 (snd (k a s1))) →
  render_frame s (snd ((m ≫= k) s)).
Proof.
  intros Hm Hk. unfold mbind, M_bind. destruct (m s) as [a s1] eqn:E.
  eapply render_frame_trans; [exact Hm|apply Hk].
Qed.

Lemma render_frame_emit (e : Effect) (s : Sys) :
  is_loginAnonymous e = false → render_frame s (snd (emit e s)).
Proof.
  intros He. repeat split; simpl.
  - exists (user (ctx s)). by rewrite setUserInfo_id.
  - exists [e]. split; [done|]. unfold login_requests. simpl. by rewrite He.
Qed.

Lemma render_frame_getUserName (userId : string) (s : Sys) :
  render_frame s (snd (getUserName userId s)).
Proof.
  unfold getUserName. munfold. simpl.
  destruct (playerNameMapping (ctx s) !! userId); [apply render_frame_refl|].
  repeat split; simpl.
  - exists (user (ctx s)). by rewrite setUserInfo_id.
  - by exists [Call_lookupUser userId].
Qed.

Lemma render_frame_useEffect {D} `{EqDecision D} (prev : option D) (cur : D)
    (body : M unit) (s : Sys) :
  (∀ s, render_frame s (snd (body s))) →
  render_frame s (snd (useEffect prev cur body s)).
Proof.
  intros Hb. unfold useEffect.
  destruct prev; [case_decide|]; auto using render_frame_refl.
Qed.

Lemma render_frame_connectionError_effect (c : Ctx) (s : Sys) :
  render_frame s (snd (connectionError_effect c s)).
Proof.
  unfold connectionError_effect.
  destruct (connectionError c); [by apply render_frame_emit|apply render_frame_refl].
Qed.

Lemma render_frame_token_effect (c : Ctx) (s : Sys) :
  render_frame s (snd (token_effect c s)).
Proof.
  unfold token_effect.
  destruct (token c) as [t|]; [|apply render_frame_refl].
  destruct (truthy (Some t)); [|apply render_frame_refl].
  repeat split; simpl; [by eexists|].
  exists []. by rewrite app_nil_r.
Qed.

Lemma render_frame_turn_effect (c : Ctx) (s : Sys) :
  render_frame s (snd (turn_effect c s)).
Proof.
  unfold turn_effect.
  destruct (turn_of (playerState c)) as [t|]; [|apply render_frame_refl].
  destruct (truthy (Some t)); [|apply render_frame_refl].
  case_decide; [by apply render_frame_emit|].
  apply render_frame_bind; [apply render_frame_getUserName|].
  intros. by apply render_frame_emit.
Qed.

(** What a render can change: the [user] cell, the trace (toasts and
    lookups only) and the pending lookups. *)
Lemma commit_frame (prev : option Ctx) (s : Sys) :
  render_frame s (snd (commit prev s)).
Proof.
  unfold commit.
  apply render_frame_bind; [apply render_frame_refl|]. intros c s1.
  apply render_frame_bind;
    [apply render_frame_useEffect, render_frame_connectionError_effect|].
  intros _ s2.
  apply render_frame_bind;
    [apply render_frame_useEffect, render_frame_token_effect|].
  intros _ s3.
  apply render_frame_useEffect, render_frame_turn_effect.
Qed.

(** ** The invariants hold in every reachable state *)

Lemma callbacks_inv_same (s s' : Sys) :
  nextHandle s' = nextHandle s → registered s' = registered s →
  callbacks_inv s → callbacks_inv s'.
Proof. unfold callbacks_inv. intros -> ->. done. Qed.

Lemma callbacks_inv_connect (s s' : Sys) :
  nextHandle s' = S (nextHandle s) →
  registered s' = <[nextHandle s := connect_callbacks]> (registered s) →
  callbacks_inv s → callbacks_inv s'.
Proof.
  unfold callbacks_inv. intros -> -> Hc h.
  destruct (decide (h = nextHandle s)) as [->|Hne].
  - rewrite lookup_insert_eq, decide_True by lia. done.
  - rewrite lookup_insert_ne, Hc by done.
    repeat case_decide; done || lia.
Qed.

Ltac unfold_handlers :=
  repeat (progress (
      unfold login_as, login_start, login_settle, connect, disconnect, createGame_start,
        createGame_resume, client_create, joinGame, startGame, playCard, drawCard,
        HandleConnection, endGame, getUserName, getUserName_then, void in *;
      munfold; simpl in * )).

Lemma handle_inv (ev : Event) (s : Sys) : inv s → inv (snd (handle ev s)).
Proof.
  intros [Hc Hl]. split.
  - destruct ev; simpl; unfold_handlers;
      repeat (case_match; simplify_eq/=);
      first [ by eapply callbacks_inv_same; [| |exact Hc]
            | by eapply callbacks_inv_connect; [| |exact Hc] ].
  - unfold login_inv in *.
    destruct (isLoginIn (ctx s)) eqn:Hi; [destruct Hl as [who Hl]|];
      destruct ev; simpl; unfold_handlers; rewrite ?Hi, ?Hl; simpl;
      repeat (case_match; simplify_eq/=);
      try match goal with
          | H : registered _ !! _ = Some _ |- _ =>
              rewrite Hc in H; case_decide; simplify_eq/=
          end;
      rewrite ?Hi, ?Hl; simpl; eauto; congruence.
Qed.

Lemma commit_inv (prev : option Ctx) (s : Sys) : inv s → inv (snd (commit prev s)).
Proof.
  intros [Hc Hl].
  destruct (commit_frame prev s) as (Hn & Hr & Hf & [u Hu] & _).
  split.
  - by apply (callbacks_inv_same s).
  - unfold login_inv in *. rewrite Hf, Hu. by destruct (ctx s).
Qed.

Lemma step_unfold (ev : Event) (s : Sys) :
  step ev s = snd (commit (Some (ctx s)) (snd (handle ev s))).
Proof.
  unfold step. unfold mbind at 1, M_bind at 1. by destruct (handle ev s).
Qed.

Lemma step_inv (ev : Event) (s : Sys) : inv s → inv (step ev s).
Proof. intros Hi. rewrite step_unfold. by apply commit_inv, handle_inv. Qed.

Lemma run_app (evs1 evs2 : list Event) (s : Sys) :
  run (evs1 ++ evs2) s = run evs2 (run evs1 s).
Proof. apply foldl_app. Qed.

Lemma run_inv (evs : list Event) (s : Sys) : inv s → inv (run evs s).
Proof.
  revert s. induction evs as [|ev evs IH]; intros s Hi; [done|].
  simpl. by apply IH, step_inv.
Qed.

Lemma initial_inv (tok : option string) (m : option (gmap string UserData)) :
  inv (initial tok m).
Proof.
  unfold inv, callbacks_inv, login_inv. simpl. split; [|done].
  intros h. apply lookup_empty.
Qed.

Lemma reachable_inv (s : Sys) : reachable s → inv s.
Proof.
  intros (tok & m & evs & ->). apply run_inv, commit_inv, initial_inv.
Qed.

Lemma reachable_step (ev : Event) (s : Sys) : reachable s → reachable (step ev s).
Proof.
  intros (tok & m & evs & ->). exists tok, m, (evs ++ [ev]).
  by rewrite run_app.
Qed.

Lemma reachable_run (evs : list Event) (s : Sys) : reachable s → reachable (run evs s).
Proof.
  intros (tok & m & evs0 & ->). exists tok, m, (evs0 ++ evs).
  by rewrite run_app.
Qed.

(** Connection objects are never forgotten by the transport. *)
Lemma handle_nextHandle_mono (ev : Event) (s : Sys) :
  nextHandle s ≤ nextHandle (snd (handle ev s)).
Proof.
  destruct ev; simpl; unfold_handlers;
    repeat (case_match; simplify_eq/=); lia.
Qed.

Lemma step_nextHandle_mono (ev : Event) (s : Sys) :
  nextHandle s ≤ nextHandle (step ev s).
Proof.
  rewrite step_unfold.
  destruct (commit_frame (Some (ctx s)) (snd (handle ev s))) as (-> & _).
  apply handle_nextHandle_mono.
Qed.

Lemma run_nextHandle_mono (evs : list Event) (s : Sys) :
  nextHandle s ≤ nextHandle (run evs s).
Proof.
  revert s. induction evs as [|ev evs IH]; intros s; [done|].
  simpl. etrans; [apply (step_nextHandle_mono ev)|apply IH].
Qed.

(** ** Callbacks of superseded connections *)

(** The update callback of any connection object made so far writes the
    snapshot, whatever handle is stored. *)
Lemma push_update_writes (s : Sys) (h : Handle) (state : StateSnapshot) :
  inv s → h < nextHandle s →
  ∃ u, ctx (step (Ev_push_update h state) s) =
       setUserInfo u (setConnecting (Some false) (setPlayerState (Some state) (ctx s))).
Proof.
  intros [Hc _] Hlt. rewrite step_unfold.
  destruct (commit_frame (Some (ctx s)) (snd (handle (Ev_push_update h state) s)))
    as (_ & _ & _ & [u ->] & _).
  exists u. simpl. munfold. simpl. by rewrite Hc, decide_True.
Qed.

Lemma push_failure_writes (s : Sys) (h : Handle) (e : ConnectionFailure) :
  inv s → h < nextHandle s →
  ∃ u, ctx (step (Ev_push_failure h e) s) =
       setUserInfo u (setConnecting (Some false) (setConnectionError (Some e) (ctx s))).
Proof.
  intros [Hc _] Hlt. rewrite step_unfold.
  destruct (commit_frame (Some (ctx s)) (snd (handle (Ev_push_failure h e) s)))
    as (_ & _ & _ & [u ->] & _).
  exists u. simpl. munfold. simpl. by rewrite Hc, decide_True.
Qed.

Lemma connect_returns_next (stateId : string) (s : Sys) :
  fst (connect stateId s) = nextHandle s ∧
  nextHandle (step (Ev_connect stateId) s) = S (nextHandle s).
Proof.
  split; [done|]. rewrite step_unfold.
  by destruct (commit_frame (Some (ctx s)) (snd (handle (Ev_connect stateId) s)))
    as (-> & _).
Qed.

(** C1 (as the code has it): the callbacks [connect] registers carry no
    handle identity. Let [h] be the connection object a [connect] call
    returned; after any later events (disconnects and further connects
    included, so whether or not [h] is still the stored handle) its update
    callback stores the snapshot it is given and its failure callback
    stores the error it is given; both clear [connecting] and leave the
    stored handle alone. *)
Theorem callbacks_write_regardless_of_handle
    (s0 : Sys) (stateId : string) (evs : list Event)
    (state : StateSnapshot) (e : ConnectionFailure) :
  reachable s0 →
  let h := fst (connect stateId s0) in
  let s := run evs (step (Ev_connect stateId) s0) in
  let su := step (Ev_push_update h state) s in
  let sf := step (Ev_push_failure h e) s in
  playerState (ctx su) = Some state ∧
  connecting (ctx su) = Some false ∧
  connection (ctx su) = connection (ctx s) ∧
  connectionError (ctx su) = connectionError (ctx s) ∧
  connectionError (ctx sf) = Some e ∧
  connecting (ctx sf) = Some false ∧
  connection (ctx sf) = connection (ctx s) ∧
  playerState (ctx sf) = playerState (ctx s).
Proof.
  intros Hr h s su sf.
  assert (Hi : inv s) by by apply reachable_inv, reachable_run, reachable_step.
  assert (Hlt : h < nextHandle s).
  { destruct (connect_returns_next stateId s0) as [Hh Hn]. subst h s.
    rewrite Hh. pose proof (run_nextHandle_mono evs (step (Ev_connect stateId) s0)).
    lia. }
  destruct (push_update_writes s h state Hi Hlt) as [u Hu].
  destruct (push_failure_writes s h e Hi Hlt) as [u' Hu'].
  subst su sf. rewrite Hu, Hu'. by destruct (ctx s).
Qed.

(** ** The login guard *)

(** While the guard is set, no event other than the settling of the
    pending promise issues a login request or touches the pending promise. *)
Lemma handle_while_logging_in (ev : Event) (s : Sys) :
  inv s → isLoginIn (ctx s) = true → is_login_settle ev = false →
  login_requests (trace (snd (handle ev s))) = login_requests (trace s) ∧
  loginsInFlight (snd (handle ev s)) = loginsInFlight s ∧
  isLoginIn (ctx (snd (handle ev s))) = true.
Proof.
  intros [Hc Hl] Hi Hs.
  destruct ev; try discriminate Hs; simpl; unfold_handlers; rewrite ?Hi; simpl;
    repeat (case_match; simplify_eq/=);
    try match goal with
        | H : registered _ !! _ = Some _ |- _ =>
            rewrite Hc in H; case_decide; simplify_eq/=
        end;
    rewrite ?login_requests_app; unfold login_requests; simpl;
    repeat split; try done; lia.
Qed.

Lemma step_while_logging_in (ev : Event) (s : Sys) :
  inv s → isLoginIn (ctx s) = true → is_login_settle ev = false →
  login_requests (trace (step ev s)) = login_requests (trace s) ∧
  loginsInFlight (step ev s) = loginsInFlight s ∧
  isLoginIn (ctx (step ev s)) = true.
Proof.
  intros Hv Hi Hs. rewrite step_unfold.
  destruct (handle_while_logging_in ev s Hv Hi Hs) as (Ht & Hp & Hg).
  destruct (commit_frame (Some (ctx s)) (snd (handle ev s)))
    as (_ & _ & Hf & [u Hu] & tr & Htr & Hq).
  rewrite Htr, Hf, Hu, login_requests_app, Hq, Ht, Hp.
  repeat split; [lia|]. rewrite <-Hg. by destruct (ctx (snd (handle ev s))).
Qed.

Lemma run_while_logging_in (evs : list Event) (s : Sys) :
  inv s → isLoginIn (ctx s) = true →
  Forall (λ ev, is_login_settle ev = false) evs →
  login_requests (trace (run evs s)) = login_requests (trace s) ∧
  isLoginIn (ctx (run evs s)) = true.
Proof.
  revert s. induction evs as [|ev evs IH]; intros s Hv Hi Hall; [done|].
  inversion_clear Hall as [|? ? Hev Hevs]. simpl.
  destruct (step_while_logging_in ev s Hv Hi Hev) as (Ht & _ & Hg).
  destruct (IH (step ev s)) as [Ht' Hg']; auto using step_inv.
  split; [congruence|done].
Qed.

(** A [login] call made while the guard is set does nothing. *)
Lemma login_ignored (s : Sys) (o : Outcome string) :
  isLoginIn (ctx s) = true →
  login o s = (Resolved None, s) ∧ step Ev_login s = s.
Proof.
  intros Hi.
  assert (Hs : login_start from_ui s = (false, s)).
  { unfold login_start. munfold. by rewrite Hi. }
  split.
  - unfold login, login_as. unfold mbind, M_bind. by rewrite Hs.
  - apply step_quiet; auto. simpl. unfold mbind, M_bind. by rewrite Hs.
Qed.

Lemma login_inv_flag (s : Sys) :
  login_inv s → isLoginIn (ctx s) = true ↔ loginsInFlight s ≠ [].
Proof.
  unfold login_inv. destruct (isLoginIn (ctx s)).
  - intros [who ->]. done.
  - intros ->. split; done.
Qed.

Lemma login_entered (s : Sys) :
  isLoginIn (ctx s) = false → loginsInFlight s = [] →
  login_requests (trace (step Ev_login s)) = S (login_requests (trace s)) ∧
  loginsInFlight (step Ev_login s) = [from_ui] ∧
  isLoginIn (ctx (step Ev_login s)) = true.
Proof.
  intros Hi Hl. rewrite step_unfold.
  destruct (commit_frame (Some (ctx s)) (snd (handle Ev_login s)))
    as (_ & _ & Hf & [u Hu] & tr & Htr & Hq).
  rewrite Htr, Hf, Hu, login_requests_app, Hq.
  simpl. unfold login_start. munfold. rewrite Hi. simpl.
  rewrite login_requests_app, Hl. unfold login_requests at 2. simpl.
  repeat split; lia.
Qed.

(** C7: [login] is reentrant-safe. In a reachable state with a
    [loginAnonymous] promise pending, a [login] call resolves to
    [undefined] and changes nothing: no request, nothing queued. In a
    reachable state with none pending, a [login] call issues exactly one
    request, and whatever happens before that request settles ([evs]:
    further [login] calls, [createGame] calls, anything but the settling)
    issues no other; a [login] call made after [evs] is again ignored. *)
Theorem login_is_reentrant_safe (s : Sys) (evs : list Event) (o : Outcome string) :
  reachable s →
  Forall (λ ev, is_login_settle ev = false) evs →
  match loginsInFlight s with
  | _ :: _ => login o s = (Resolved None, s) ∧ step Ev_login s = s
  | [] =>
      let s1 := step Ev_login s in
      let s2 := run evs s1 in
      login_requests (trace s1) = S (login_requests (trace s)) ∧
      loginsInFlight s1 = [from_ui] ∧
      login_requests (trace s2) = S (login_requests (trace s)) ∧
      login_requests (trace (step Ev_login s2)) = S (login_requests (trace s)) ∧
      login o s2 = (Resolved None, s2)
  end.
Proof.
  intros Hr Hall. pose proof (reachable_inv s Hr) as Hv.
  destruct Hv as [Hc Hl]. pose proof (login_inv_flag s Hl) as Hflag.
  destruct (loginsInFlight s) as [|who l] eqn:Hp.
  - assert (Hi : isLoginIn (ctx s) = false).
    { destruct (isLoginIn (ctx s)); [|done]. by destruct Hflag as [Hf _]; destruct Hf. }
    destruct (login_entered s Hi Hp) as (H1 & H2 & H3).
    assert (Hv1 : inv (step Ev_login s)) by by apply step_inv.
    destruct (run_while_logging_in evs _ Hv1 H3 Hall) as [H4 H5].
    cbv zeta. rewrite H4, H1.
    destruct (login_ignored _ o H5) as [H6 H7]. by rewrite H7, H4, H1.
  - apply login_ignored, Hflag. done.
Qed.

(** ** The user directory *)


Lemma handle_present (ev : Event) (userId : string) (s : Sys) :
  inv s →
  is_Some (playerNameMapping (ctx s) !! userId) →
  is_Some (playerNameMapping (ctx (snd (handle ev s))) !! userId).
Proof.
  intros [Hc _] Hm.
  destruct ev; simpl in *; unfold_handlers;
    repeat (case_match; simplify_eq/=);
    try match goal with
        | H : registered _ !! _ = Some _ |- _ =>
            rewrite Hc in H; case_decide; simplify_eq/=
        end;
    try done.
  all: rewrite lookup_insert_is_Some;
    match goal with
    | |- ?a = ?b ∨ _ => destruct (decide (a = b)); auto
    end.
Qed.


Lemma commit_mapping (prev : option Ctx) (s : Sys) :
  playerNameMapping (ctx (snd (commit prev s))) = playerNameMapping (ctx s).
Proof.
  destruct (commit_frame prev s) as (_ & _ & _ & [u ->] & _). done.
Qed.


Lemma run_present (evs : list Event) (userId : string) (s : Sys) :
  inv s →
  is_Some (playerNameMapping (ctx s) !! userId) →
  is_Some (playerNameMapping (ctx (run evs s)) !! userId).
Proof.
  revert s. induction evs as [|ev evs IH]; intros s Hv Hm; [done|].
  simpl. apply IH; [by apply step_inv|].
  rewrite step_unfold, commit_mapping. by apply handle_present.
Qed.

Lemma getUserName_hit (s : Sys) (userId : string) (u : UserData) :
  playerNameMapping (ctx s) !! userId = Some u →
  getUserName userId s = (name u, s).
Proof. intros Hm. unfold getUserName. munfold. by rewrite Hm. Qed.

Lemma getUserName_miss (s : Sys) (userId : string) :
  playerNameMapping (ctx s) !! userId = None →
  getUserName userId s =
    (userId, mkSys (ctx s) (trace s ++ [Call_lookupUser userId]) (nextHandle s)
                   (registered s) (loginsInFlight s) (userId :: lookupsInFlight s)).
Proof. intros Hm. unfold getUserName. munfold. by rewrite Hm. Qed.

(** The JavaScript read and the own-entry read agree on an id with an own
    entry, and on an id that names no inherited property. *)
Lemma getUserName_js_hit (s : Sys) (userId : string) (u : UserData) :
  playerNameMapping (ctx s) !! userId = Some u →
  getUserName_js userId s = (Some (name u), s).
Proof. intros Hm. unfold getUserName_js. munfold. by rewrite Hm. Qed.

Lemma getUserName_js_miss (s : Sys) (userId : string) :
  playerNameMapping (ctx s) !! userId = None →
  Object_prototype userId = None →
  getUserName_js userId s =
    (Some userId,
     mkSys (ctx s) (trace s ++ [Call_lookupUser userId]) (nextHandle s)
           (registered s) (loginsInFlight s) (userId :: lookupsInFlight s)).
Proof. intros Hm Hp. unfold getUserName_js. munfold. by rewrite Hm, Hp. Qed.

Lemma getUserName_js_inherited (s : Sys) (userId : string) (n : option string) :
  playerNameMapping (ctx s) !! userId = None →
  Object_prototype userId = Some n →
  getUserName_js userId s = (n, s).
Proof. intros Hm Hp. unfold getUserName_js. munfold. by rewrite Hm, Hp. Qed.

Lemma getUserName_js_own (s : Sys) (userId : string) :
  is_Some (playerNameMapping (ctx s) !! userId) ∨ Object_prototype userId = None →
  getUserName_js userId s =
    (Some (fst (getUserName userId s)), snd (getUserName userId s)).
Proof.
  intros Hown. destruct (playerNameMapping (ctx s) !! userId) as [u|] eqn:Hm.
  - by rewrite (getUserName_js_hit s userId u), (getUserName_hit s userId u).
  - destruct Hown as [[u Hu]|Hp]; [done|].
    by rewrite getUserName_js_miss, getUserName_miss.
Qed.


(** ** Turn-change notifications *)




(** ** Creating and joining a game *)

Lemma login_settle_resolves (o : Outcome string) (s : Sys) :
  ∃ r, fst (login_settle o s) = Resolved r.
Proof.
  unfold login_settle. munfold. simpl.
  destruct o as [t|e]; [destruct (negb (String.eqb t ""))|]; by eexists.
Qed.

(** [login] never rejects: a failure of [loginAnonymous] is caught and
    logged. *)
Lemma login_never_rejects (who : LoginCaller) (o : Outcome string) (s : Sys) :
  ∃ r, fst (login_as who o s) = Resolved r.
Proof.
  unfold login_as. unfold mbind at 1, M_bind at 1.
  destruct (login_start who s) as [[] s1]; [apply login_settle_resolves|by exists None].
Qed.

Lemma createGame_unfold (ologin ocreate : Outcome string) (s : Sys) :
  createGame ologin ocreate s =
    (if truthy (token (ctx s)) then
       match token (ctx s) with
       | Some t => client_create t ocreate
       | None => mret (Resolved None)
       end
     else r ← login_as (from_createGame ocreate) ologin;
          createGame_resume r ocreate) s.
Proof.
  unfold createGame. unfold mbind at 1, M_bind at 1, get.
  destruct (token (ctx s)) as [t|]; simpl; [|done].
  by destruct (negb (String.eqb t "")).
Qed.

(** C5: [createGame] with a truthy token issues the create-room request
    with the default payload and returns the game id it yields. Without
    one it calls [login] first: when that call is let in and the login
    request resolves to a truthy token, the token is stored and the
    create-room request is issued with it and the default payload; when the
    login request fails (the error is logged) or yields no token, or when
    the [login] call is ignored by the guard, [createGame] resolves to
    [undefined] and issues no create-room request. *)
Theorem createGame_logs_in_when_needed
    (s : Sys) (ologin : Outcome string) (gameId : string) :
  let r := fst (createGame ologin (Resolved gameId) s) in
  let s' := snd (createGame ologin (Resolved gameId) s) in
  if truthy (token (ctx s)) then
    ∃ t, token (ctx s) = Some t ∧
         trace s' = trace s ++ [Call_create t IInitializeRequest_default] ∧
         r = Resolved (Some gameId) ∧
         ctx s' = ctx s
  else if isLoginIn (ctx s) then
    r = Resolved None ∧ s' = s
  else
    match ologin with
    | Resolved t' =>
        token (ctx s') = Some t' ∧
        if truthy (Some t') then
          trace s' = trace s ++ [Call_loginAnonymous;
                                 Call_create t' IInitializeRequest_default] ∧
          r = Resolved (Some gameId)
        else
          trace s' = trace s ++ [Call_loginAnonymous] ∧ r = Resolved None
    | Rejected e =>
        token (ctx s') = token (ctx s) ∧
        trace s' = trace s ++ [Call_loginAnonymous; Console_error e] ∧
        r = Resolved None
    end.
Proof.
  cbv zeta. rewrite createGame_unfold.
  destruct (truthy (token (ctx s))) eqn:Ht.
  - destruct (token (ctx s)) as [t|] eqn:Hk; [|done].
    exists t. unfold client_create. munfold. simpl. done.
  - destruct (isLoginIn (ctx s)) eqn:Hi; unfold_handlers; rewrite Hi; simpl.
    + by destruct s.
    + destruct ologin as [t'|e]; simpl; [|by rewrite <-!app_assoc].
      destruct (negb (String.eqb t' "")) eqn:Hty; simpl; rewrite ?Hty; simpl;
        by rewrite <-?app_assoc.
Qed.

(** C3, at the failing input: with a truthy token, a create-room request
    that rejects makes the promise [createGame] returned reject with the
    same error; no toast is shown and no cell records the failure. A join
    action that rejects makes [joinGame] reject likewise. *)
Theorem createGame_rejection_reaches_caller
    (s : Sys) (ologin : Outcome string) (gameId e : string) :
  let s' := snd (createGame ologin (Rejected e) s) in
  (if truthy (token (ctx s)) then
     fst (createGame ologin (Rejected e) s) = Rejected e ∧
     toasts (trace s') = toasts (trace s) ∧
     ctx s' = ctx s
   else True) ∧
  fst (joinGame gameId (Rejected e) s) = Rejected e ∧
  toasts (trace (snd (joinGame gameId (Rejected e) s))) = toasts (trace s).
Proof.
  cbv zeta. split.
  - rewrite createGame_unfold.
    destruct (truthy (token (ctx s))) eqn:Ht; [|done].
    destruct (token (ctx s)) as [t|] eqn:Hk; [|done].
    unfold client_create. munfold. simpl.
    by rewrite toasts_app, app_nil_r.
  - unfold_handlers. by rewrite !toasts_app, !app_nil_r.
Qed.

(** C4, at the failing input: when the join action answers with a failure
    result, [joinGame] resolves, the handle made by [connect] stays stored
    and the snapshot and connection error are untouched, but the failure is
    dropped: the only calls made are the connect and the join, no toast is
    shown, neither by the method nor by the render that follows. *)
Theorem joinGame_failure_is_dropped (s : Sys) (gameId error : string) :
  let ojoin := Resolved (Response_error error) in
  let s' := snd (joinGame gameId ojoin s) in
  fst (joinGame gameId ojoin s) = Resolved tt ∧
  connection (ctx s') = Some (nextHandle s) ∧
  playerState (ctx s') = playerState (ctx s) ∧
  connectionError (ctx s') = connectionError (ctx s) ∧
  trace s' = trace s ++ [Call_connect (token (ctx s)) gameId (nextHandle s);
                         Call_joinGame (nextHandle s)] ∧
  toasts (trace s') = toasts (trace s) ∧
  step (Ev_joinGame gameId ojoin) s = s'.
Proof.
  cbv zeta.
  assert (Hj : joinGame gameId (Resolved (Response_error error)) s =
               (Resolved tt,
                mkSys (setConnection (Some (nextHandle s))
                         (setConnecting (Some true) (ctx s)))
                      (trace s ++ [Call_connect (token (ctx s)) gameId (nextHandle s);
                                   Call_joinGame (nextHandle s)])
                      (S (nextHandle s))
                      (<[nextHandle s := connect_callbacks]> (registered s))
                      (loginsInFlight s) (lookupsInFlight s))).
  { unfold_handlers. by rewrite <-app_assoc. }
  rewrite Hj. simpl. repeat split.
  - by rewrite toasts_app, app_nil_r.
  - apply step_quiet; auto. simpl. unfold mbind, M_bind. by rewrite Hj.
Qed.

(** ** The one-piece methods and the event loop agree *)

(** [login] run in one piece is the call event followed by the settling
    event, when no other login is pending. *)
Lemma login_as_events (s : Sys) (o : Outcome string) :
  loginsInFlight s = [] →
  snd (login o s) =
    snd ((handle Ev_login;; handle (Ev_loginAnonymous_settles o)) s).
Proof.
  intros Hl. unfold login. simpl. unfold_handlers.
  destruct (isLoginIn (ctx s)) eqn:Hi; simpl; rewrite ?Hl; simpl; [done..|].
  destruct o as [t|e]; [destruct (negb (String.eqb t ""))|]; simpl; done.
Qed.

(** Likewise for [createGame]. *)
Lemma createGame_as_events (s : Sys) (ologin ocreate : Outcome string) :
  loginsInFlight s = [] →
  snd (createGame ologin ocreate s) =
    snd ((handle (Ev_createGame ocreate);;
          if truthy (token (ctx s)) then mret tt
          else handle (Ev_loginAnonymous_settles ologin)) s).
Proof.
  intros Hl. simpl. unfold createGame, createGame_start. unfold_handlers.
  destruct (token (ctx s)) as [t|]; simpl;
    [destruct (negb (String.eqb t "")) eqn:Ht|]; simpl; rewrite ?Ht; simpl;
    try done;
    (destruct (isLoginIn (ctx s)); simpl; rewrite ?Hl; simpl; try done;
     destruct ologin as [t'|e]; [destruct (negb (String.eqb t' "")) eqn:Ht'|];
     simpl; rewrite ?Ht'; simpl; done).
Qed.

(** ** Deriving the user from the token *)

(** A successful [login] decodes the token, fills [user], seeds the name
    mapping with the record and stores the token; the only call made is
    the login request, so no lookup is issued. *)
Lemma login_seeds_directory (s : Sys) (t : string) :
  isLoginIn (ctx s) = false → truthy (Some t) = true →
  let s' := snd (login (Resolved t) s) in
  fst (login (Resolved t) s) = Resolved (Some t) ∧
  user (ctx s') = Some (getUserFromToken t) ∧
  playerNameMapping (ctx s') !! id (getUserFromToken t) = Some (getUserFromToken t) ∧
  token (ctx s') = Some t ∧
  trace s' = trace s ++ [Call_loginAnonymous].
Proof.
  intros Hi Ht. unfold login. unfold_handlers. rewrite Hi. simpl in *.
  rewrite Ht. simpl. by rewrite lookup_insert_eq.
Qed.

(** C9, at the failing input: a provider mounted with a persisted truthy
    token and no persisted name mapping decodes the token and fills
    [user] without any call, but the name mapping stays empty; the first
    [getUserName] for the user's own id then returns the raw id and issues
    a lookup. *)
Theorem token_effect_does_not_seed (t : string) :
  let s := mount (Some t) None in
  let me := id (getUserFromToken t) in
  if truthy (Some t) then
    user (ctx s) = Some (getUserFromToken t) ∧
    trace s = [] ∧
    playerNameMapping (ctx s) = ∅ ∧
    fst (getUserName me s) = me ∧
    trace (snd (getUserName me s)) = [Call_lookupUser me]
  else True.
Proof.
  cbv zeta. destruct (truthy (Some t)) eqn:Ht; [|done].
  unfold mount, commit, useEffect, connectionError_effect, token_effect,
    turn_effect, getUserName. munfold. simpl in *. rewrite Ht. simpl.
  by rewrite lookup_empty.
Qed.

(** ** Disconnecting and leaving *)

(** C8: with a stored handle, [disconnect] tells the transport to tear
    the connection down and clears the handle, the snapshot, the events
    and the connection error; without one it changes nothing at all (and,
    being a total function to [unit], raises nothing). The render that
    follows shows no notification in either case. *)
Theorem disconnect_clears_or_noop (s : Sys) :
  match connection (ctx s) with
  | Some h =>
      let s' := snd (disconnect s) in
      trace s' = trace s ++ [Call_disconnect h] ∧
      ctx s' = setConnectionError None (setEvents None (setPlayerState None
                 (setConnection None (ctx s)))) ∧
      connection (ctx s') = None ∧
      playerState (ctx s') = None ∧
      events (ctx s') = None ∧
      connectionError (ctx s') = None ∧
      step Ev_disconnect s = s'
  | None =>
      disconnect s = (tt, s) ∧ step Ev_disconnect s = s
  end.
Proof.
  destruct (connection (ctx s)) as [h|] eqn:Hc.
  - assert (Hd : handle Ev_disconnect s = (tt, snd (disconnect s))).
    { simpl. unfold disconnect. munfold. by rewrite Hc. }
    cbv zeta. repeat split;
      try (unfold disconnect; munfold; by rewrite Hc).
    apply step_quiet; [done|right|..|right];
      unfold disconnect; munfold; by rewrite Hc.
  - assert (Hd : disconnect s = (tt, s)).
    { unfold disconnect. munfold. by rewrite Hc. }
    split; [done|]. apply step_quiet; auto.
Qed.

(** C10: [endGame] clears the snapshot and, when a handle is stored,
    tells the transport to disconnect; the stored handle, the connection
    error and every other cell stay as they were. *)
Theorem endGame_keeps_handle (s : Sys) :
  let s' := snd (endGame s) in
  ctx s' = setPlayerState None (ctx s) ∧
  playerState (ctx s') = None ∧
  connection (ctx s') = connection (ctx s) ∧
  connectionError (ctx s') = connectionError (ctx s) ∧
  trace s' = trace s ++ match connection (ctx s) with
                        | Some h => [Call_disconnect h]
                        | None => []
                        end ∧
  step Ev_endGame s = s'.
Proof.
  assert (He : endGame s = (tt, snd (endGame s))).
  { by destruct (endGame s) as [[] ?]. }
  assert (Hc : ctx (snd (endGame s)) = setPlayerState None (ctx s)).
  { unfold endGame. munfold. simpl. by destruct (connection (ctx s)). }
  cbv zeta. rewrite Hc. repeat split.
  - unfold endGame. munfold. simpl.
    destruct (connection (ctx s)); simpl; by rewrite ?app_nil_r.
  - apply step_quiet; [apply He|left|..|right]; by rewrite Hc.
Qed.

(** * Further properties of the provider *)

(** ** Game actions *)

Lemma handle_action (s : Sys) (h : Handle) :
  connection (ctx s) = Some h →
  (∀ o, handle (Ev_startGame o) s
        = (tt, append_trace s (Call_startGame h :: failure_toast o))) ∧
  (∀ card o, handle (Ev_playCard card o) s
        = (tt, append_trace s (Call_playCard h card :: failure_toast o))) ∧
  (∀ o, handle (Ev_drawCard o) s
        = (tt, append_trace s (Call_drawCard h :: failure_toast o))).
Proof.
  intros Hc. unfold append_trace.
  repeat split; intros; simpl; unfold_handlers; rewrite Hc;
    repeat (case_match; simplify_eq/=); by rewrite <-?app_assoc.
Qed.

Lemma handle_action_idle (ev : Event) (s : Sys) :
  connection (ctx s) = None → is_action ev = true → handle ev s = (tt, s).
Proof.
  intros Hc Ha. destruct ev; try discriminate Ha; simpl; unfold_handlers;
    by rewrite Hc.
Qed.

Lemma append_trace_nil (s : Sys) : append_trace s [] = s.
Proof. unfold append_trace. rewrite app_nil_r. by destruct s. Qed.

(** X1: a game action ([startGame], [playCard], [drawCard]) changes
    nothing but the trace, also after the render that follows. Without a
    stored handle it is dropped: nothing is sent and nothing is shown. With
    a stored handle it sends the one call on that handle, and
    [HandleConnection] shows one error toast when the response is a
    failure result and nothing when it is a success or a rejection. *)
Theorem action_changes_only_trace
    (s : Sys) (card : Card) (o : Outcome Response) :
  match connection (ctx s) with
  | Some h =>
      step (Ev_startGame o) s
        = append_trace s (Call_startGame h :: failure_toast o) ∧
      step (Ev_playCard card o) s
        = append_trace s (Call_playCard h card :: failure_toast o) ∧
      step (Ev_drawCard o) s
        = append_trace s (Call_drawCard h :: failure_toast o)
  | None =>
      step (Ev_startGame o) s = s ∧
      step (Ev_playCard card o) s = s ∧
      step (Ev_drawCard o) s = s
  end.
Proof.
  destruct (connection (ctx s)) as [h|] eqn:Hc.
  - destruct (handle_action s h Hc) as (H1 & H2 & H3).
    repeat split; apply step_quiet; auto.
  - repeat split; apply step_quiet; auto; by apply handle_action_idle.
Qed.

Lemma step_action_idle (ev : Event) (s : Sys) :
  connection (ctx s) = None → is_action ev = true → step ev s = s.
Proof. intros Hc Ha. apply step_quiet; auto. by apply handle_action_idle. Qed.

Lemma step_disconnect_no_handle (s : Sys) :
  connection (ctx (step Ev_disconnect s)) = None.
Proof.
  rewrite step_unfold.
  destruct (commit_frame (Some (ctx s)) (snd (handle Ev_disconnect s)))
    as (_ & _ & _ & [u ->] & _).
  simpl. unfold disconnect. munfold.
  by destruct (connection (ctx s)) eqn:Hc.
Qed.

(** X2: after [disconnect], game actions are dropped: any sequence of
    them leaves the whole state, trace included, as [disconnect] left it. *)
Theorem actions_after_disconnect_are_dropped (s : Sys) (evs : list Event) :
  Forall (λ ev, is_action ev = true) evs →
  run evs (step Ev_disconnect s) = step Ev_disconnect s.
Proof.
  intros Hall. pose proof (step_disconnect_no_handle s) as Hc.
  induction Hall as [|ev evs Hev _ IH]; [done|].
  simpl. by rewrite step_action_idle.
Qed.

(** X3: [endGame] does not have that effect. With a handle stored,
    [endGame] calls [disconnect] on it but keeps it stored, so an action
    issued afterwards is still sent on the handle that was just closed. *)
Theorem actions_after_endGame_use_closed_handle
    (s : Sys) (h : Handle) (card : Card) (o : Outcome Response) :
  connection (ctx s) = Some h →
  let s1 := step Ev_endGame s in
  trace s1 = trace s ++ [Call_disconnect h] ∧
  trace (step (Ev_startGame o) s1)
    = trace s ++ Call_disconnect h :: Call_startGame h :: failure_toast o ∧
  trace (step (Ev_playCard card o) s1)
    = trace s ++ Call_disconnect h :: Call_playCard h card :: failure_toast o ∧
  trace (step (Ev_drawCard o) s1)
    = trace s ++ Call_disconnect h :: Call_drawCard h :: failure_toast o.
Proof.
  intros Hc.
  assert (He : step Ev_endGame s =
               mkSys (setPlayerState None (ctx s)) (trace s ++ [Call_disconnect h])
                     (nextHandle s) (registered s) (loginsInFlight s)
                     (lookupsInFlight s)).
  { apply step_quiet; auto. simpl. unfold endGame. munfold. simpl.
    by rewrite Hc. }
  cbv zeta. rewrite He.
  set (s1 := mkSys _ _ _ _ _ _).
  assert (Hc1 : connection (ctx s1) = Some h) by done.
  destruct (handle_action s1 h Hc1) as (H1 & H2 & H3).
  split; [done|].
  repeat split;
    (erewrite step_quiet; [| by eauto | auto ..]); simpl;
    by rewrite <-app_assoc.
Qed.

(** ** More invariants of the event loop *)

Lemma useEffect_ctx {D} `{EqDecision D} (prev : option D) (cur : D)
    (body : M unit) (s : Sys) :
  (∀ s, ctx (snd (body s)) = ctx s) →
  ctx (snd (useEffect prev cur body s)) = ctx s.
Proof.
  intros Hb. unfold useEffect. destruct prev; [case_decide|]; auto.
Qed.

Lemma connectionError_effect_ctx (c : Ctx) (s : Sys) :
  ctx (snd (connectionError_effect c s)) = ctx s.
Proof. unfold connectionError_effect. by destruct (connectionError c). Qed.

Lemma turn_effect_ctx (c : Ctx) (s : Sys) :
  ctx (snd (turn_effect c s)) = ctx s.
Proof.
  unfold turn_effect, getUserName. munfold.
  repeat (case_match; simplify_eq/=); done.
Qed.

(** The cells after a render are those the token effect leaves. *)
Lemma commit_ctx (prev : option Ctx) (s : Sys) :
  ctx (snd (commit prev s)) =
  ctx (snd (useEffect (token <$> prev) (token (ctx s)) (token_effect (ctx s)) s)).
Proof.
  unfold commit. unfold mbind, M_bind, get.
  pose proof (useEffect_ctx (connectionError <$> prev) (connectionError (ctx s))
                (connectionError_effect (ctx s)) s
                (connectionError_effect_ctx (ctx s))) as H1.
  destruct (useEffect (connectionError <$> prev) _ _ s) as [[] s1]. simpl in H1.
  assert (H2 : ctx (snd (useEffect (token <$> prev) (token (ctx s))
                           (token_effect (ctx s)) s1)) =
               ctx (snd (useEffect (token <$> prev) (token (ctx s))
                           (token_effect (ctx s)) s))).
  { unfold useEffect, token_effect. munfold.
    repeat (case_match; simplify_eq/=); by rewrite ?H1. }
  destruct (useEffect (token <$> prev) _ _ s1) as [[] s2]. simpl in H2.
  rewrite <-H2. apply useEffect_ctx, turn_effect_ctx.
Qed.

Lemma commit_user_token (prev : option Ctx) (s : Sys) :
  match prev with None => True | Some _ => user_token_inv s end →
  user_token_inv (snd (commit prev s)).
Proof.
  intros Hp. unfold user_token_inv. rewrite commit_ctx.
  unfold useEffect, token_effect. munfold.
  destruct prev as [c|]; simpl in *.
  - case_decide; [done|].
    repeat (case_match; simplify_eq/=); intros; simplify_eq/=; auto; congruence.
  - repeat (case_match; simplify_eq/=); intros; simplify_eq/=; auto; congruence.
Qed.

Lemma handle_user_token (ev : Event) (s : Sys) :
  callbacks_inv s → user_token_inv s → user_token_inv (snd (handle ev s)).
Proof.
  intros Hc Hu. unfold user_token_inv in *.
  destruct ev; simpl; unfold_handlers;
    repeat (case_match; simplify_eq/=);
    try match goal with
        | H : registered _ !! _ = Some _ |- _ =>
            rewrite Hc in H; case_decide; simplify_eq/=
        end;
    intros; simplify_eq/=; auto; congruence.
Qed.

Lemma handle_loggingIn (ev : Event) (s : Sys) :
  callbacks_inv s → loggingIn_inv s → loggingIn_inv (snd (handle ev s)).
Proof.
  intros Hc Hu. unfold loggingIn_inv in *.
  destruct ev; simpl; unfold_handlers;
    repeat (case_match; simplify_eq/=);
    try match goal with
        | H : registered _ !! _ = Some _ |- _ =>
            rewrite Hc in H; case_decide; simplify_eq/=
        end;
    try done; congruence.
Qed.

Lemma handle_latest_handle (ev : Event) (s : Sys) :
  callbacks_inv s → latest_handle_inv s → latest_handle_inv (snd (handle ev s)).
Proof.
  intros Hc Hu. unfold latest_handle_inv in *.
  destruct ev; simpl; unfold_handlers;
    repeat (case_match; simplify_eq/=);
    try match goal with
        | H : registered _ !! _ = Some _ |- _ =>
            rewrite Hc in H; case_decide; simplify_eq/=
        end;
    intros; simplify_eq/=; auto.
Qed.

Lemma reachable_more_inv (s : Sys) :
  reachable s → loggingIn_inv s ∧ latest_handle_inv s ∧ user_token_inv s.
Proof.
  intros (tok & m & evs & ->).
  assert (H0 : inv (mount tok m) ∧ loggingIn_inv (mount tok m) ∧
               latest_handle_inv (mount tok m) ∧ user_token_inv (mount tok m)).
  { split; [apply commit_inv, initial_inv|].
    unfold mount.
    destruct (commit_frame None (initial tok m)) as (Hn & _ & _ & [u Hu] & _).
    repeat split.
    - unfold loggingIn_inv. by rewrite Hu.
    - unfold latest_handle_inv. rewrite Hu. done.
    - by apply commit_user_token. }
  revert H0. generalize (mount tok m). clear tok m.
  induction evs as [|ev evs IH]; intros s (Hi & Hl & Hh & Hu); [done|].
  simpl. apply IH. split; [by apply step_inv|].
  rewrite step_unfold. destruct Hi as [Hc _].
  destruct (commit_frame (Some (ctx s)) (snd (handle ev s)))
    as (Hn & _ & _ & [u Hcx] & _).
  pose proof (handle_loggingIn ev s Hc Hl) as Hl'.
  pose proof (handle_latest_handle ev s Hc Hh) as Hh'.
  pose proof (handle_user_token ev s Hc Hu) as Hu'.
  repeat split.
  - unfold loggingIn_inv in *. rewrite Hcx. by destruct (ctx (snd (handle ev s))).
  - unfold latest_handle_inv in *. rewrite Hcx, Hn. intros h Hs. apply Hh'.
    by destruct (ctx (snd (handle ev s))).
  - by apply commit_user_token.
Qed.

(** X4: in every reachable state the exposed [loggingIn] flag is true
    exactly when a [loginAnonymous] request is pending. *)
Theorem loggingIn_iff_login_pending (s : Sys) :
  reachable s →
  loggingIn (ctx s) = Some true ↔ loginsInFlight s ≠ [].
Proof.
  intros Hr. destruct (reachable_more_inv s Hr) as (Hl & _ & _).
  destruct (reachable_inv s Hr) as [_ Hi].
  rewrite <-(login_inv_flag s Hi). unfold loggingIn_inv in Hl.
  rewrite <-Hl. by rewrite bool_decide_eq_true.
Qed.

(** X5: in every reachable state a stored handle is the connection
    object made last, and the transport holds the closures of [connect]
    for it. *)
Theorem stored_handle_is_latest (s : Sys) (h : Handle) :
  reachable s → connection (ctx s) = Some h →
  nextHandle s = S h ∧ registered s !! h = Some connect_callbacks.
Proof.
  intros Hr Hc. destruct (reachable_more_inv s Hr) as (_ & Hh & _).
  destruct (reachable_inv s Hr) as [Hcb _].
  pose proof (Hh h Hc) as Hn. split; [done|].
  rewrite Hcb, decide_True by lia. done.
Qed.

(** X6: in every reachable state, a stored truthy token and [user]
    agree: [user] is the record decoded from the token. *)
Theorem user_is_decoded_token (s : Sys) (t : string) :
  reachable s → token (ctx s) = Some t → truthy (Some t) = true →
  user (ctx s) = Some (getUserFromToken t).
Proof.
  intros Hr. destruct (reachable_more_inv s Hr) as (_ & _ & Hu). apply Hu.
Qed.

(** ** The [connecting] flag *)

Lemma handle_connecting (ev : Event) (s : Sys) :
  is_push ev = false → connecting (ctx s) = Some true →
  connecting (ctx (snd (handle ev s))) = Some true.
Proof.
  intros Hp Hc.
  destruct ev; try discriminate Hp; simpl; unfold_handlers;
    repeat (case_match; simplify_eq/=); done.
Qed.

Lemma step_connecting (ev : Event) (s : Sys) :
  is_push ev = false → connecting (ctx s) = Some true →
  connecting (ctx (step ev s)) = Some true.
Proof.
  intros Hp Hc. rewrite step_unfold.
  destruct (commit_frame (Some (ctx s)) (snd (handle ev s)))
    as (_ & _ & _ & [u ->] & _).
  simpl. by apply handle_connecting.
Qed.

(** X7: [connect] sets [connecting], and only a callback of the
    transport clears it: after a [connect], whatever is called before the
    transport fires a callback ([disconnect] and [endGame] included)
    leaves [connecting] true. *)
Theorem connecting_until_callback (s : Sys) (stateId : string) (evs : list Event) :
  Forall (λ ev, is_push ev = false) evs →
  connecting (ctx (run evs (step (Ev_connect stateId) s))) = Some true.
Proof.
  intros Hall.
  assert (H0 : connecting (ctx (step (Ev_connect stateId) s)) = Some true).
  { rewrite step_unfold.
    destruct (commit_frame (Some (ctx s)) (snd (handle (Ev_connect stateId) s)))
      as (_ & _ & _ & [u ->] & _).
    done. }
  revert H0. generalize (step (Ev_connect stateId) s).
  induction Hall as [|ev evs Hev _ IH]; intros s0 H0; [done|].
  simpl. by apply IH, step_connecting.
Qed.

(** ** Connection failures *)

(** X8: when the failure callback of a connection object fires with an
    error that differs from the stored one, the error is stored,
    [connecting] is cleared, and the render that follows shows the message
    in one error toast; nothing else changes. *)
Theorem connection_failure_is_stored_and_shown
    (s : Sys) (h : Handle) (e : ConnectionFailure) :
  reachable s → h < nextHandle s → connectionError (ctx s) ≠ Some e →
  step (Ev_push_failure h e) s =
    mkSys (setConnecting (Some false) (setConnectionError (Some e) (ctx s)))
          (trace s ++ [Toast_error (message e)])
          (nextHandle s) (registered s) (loginsInFlight s) (lookupsInFlight s).
Proof.
  intros Hr Hlt Hne. destruct (reachable_inv s Hr) as [Hc _].
  unfold step. unfold mbind at 1, M_bind at 1.
  assert (Hh : handle (Ev_push_failure h e) s =
               (tt, mkSys (setConnecting (Some false)
                             (setConnectionError (Some e) (ctx s)))
                          (trace s) (nextHandle s) (registered s)
                          (loginsInFlight s) (lookupsInFlight s))).
  { simpl. munfold. simpl. by rewrite Hc, decide_True. }
  rewrite Hh. unfold commit. munfold. simpl.
  rewrite decide_False by done. rewrite !decide_True by done.
  unfold connectionError_effect. by munfold.
Qed.

(** ** Mounting *)

(** X9: mounting the provider calls no collaborator and shows nothing,
    whatever session storage holds: the token and the name mapping are the
    stored ones (the mapping defaulting to empty), there is no handle, no
    snapshot, no error and no pending login, and [user] is the record
    decoded from the token when the token is truthy and absent otherwise. *)
Theorem mount_is_silent (tok : option string) (m : option (gmap string UserData)) :
  let s := mount tok m in
  trace s = [] ∧
  token (ctx s) = tok ∧
  playerNameMapping (ctx s) = default ∅ m ∧
  connection (ctx s) = None ∧
  playerState (ctx s) = None ∧
  connectionError (ctx s) = None ∧
  isLoginIn (ctx s) = false ∧
  loginsInFlight s = [] ∧
  user (ctx s) = (if truthy tok then getUserFromToken <$> tok else None).
Proof.
  cbv zeta. unfold mount, commit, useEffect, connectionError_effect,
    token_effect, turn_effect. munfold. simpl.
  destruct tok as [t|]; simpl; [|done].
  by destruct (negb (String.eqb t "")).
Qed.

(** ** Settling a login *)

(** X10: however the pending login request settles, the guard is
    released: afterwards no login is pending, [loggingIn] is false, no
    login request was added, and the next [login] call issues a request. *)
Theorem login_guard_released_when_settled (s : Sys) (o : Outcome string) :
  reachable s → loginsInFlight s ≠ [] →
  let s1 := step (Ev_loginAnonymous_settles o) s in
  loginsInFlight s1 = [] ∧
  isLoginIn (ctx s1) = false ∧
  loggingIn (ctx s1) = Some false ∧
  login_requests (trace s1) = login_requests (trace s) ∧
  login_requests (trace (step Ev_login s1)) = S (login_requests (trace s)).
Proof.
  intros Hr Hp s1. destruct (reachable_inv s Hr) as [Hc Hl].
  assert (Hi : isLoginIn (ctx s) = true) by by apply login_inv_flag.
  unfold login_inv in Hl. rewrite Hi in Hl. destruct Hl as [who Hw].
  assert (H1 : loginsInFlight s1 = [] ∧ isLoginIn (ctx s1) = false ∧
               loggingIn (ctx s1) = Some false ∧
               login_requests (trace s1) = login_requests (trace s)).
  { subst s1. rewrite step_unfold.
    destruct (commit_frame (Some (ctx s))
                (snd (handle (Ev_loginAnonymous_settles o) s)))
      as (_ & _ & -> & [u ->] & tr & -> & Hq).
    rewrite login_requests_app, Hq.
    simpl. unfold_handlers. rewrite Hw. simpl.
    destruct o as [t|e]; [destruct (negb (String.eqb t "")) eqn:Ht|];
      destruct who as [|oc]; simpl; rewrite ?Ht; simpl;
      rewrite ?login_requests_app; unfold login_requests; simpl;
      rewrite ?Hw; simpl; repeat split; lia. }
  destruct H1 as (Ha & Hb & Hd & He). repeat split; try done.
  destruct (login_entered s1 Hb Ha) as (Hf & _). by rewrite Hf, He.
Qed.

(** X11: a login whose request rejects leaves the session as it was: the
    error is logged on the console, and of the cells only [loggingIn]
    changes (to false); token, user and name mapping are untouched. *)
Theorem failed_login_leaves_session_untouched (s : Sys) (e : string) :
  isLoginIn (ctx s) = false →
  run [Ev_login; Ev_loginAnonymous_settles (Rejected e)] s =
    mkSys (setLoggingIn (Some false) (ctx s))
          (trace s ++ [Call_loginAnonymous; Console_error e])
          (nextHandle s) (registered s) (loginsInFlight s) (lookupsInFlight s).
Proof.
  intros Hi. simpl.
  set (s1 := mkSys (set_isLoginIn true (setLoggingIn (Some true) (ctx s)))
               (trace s ++ [Call_loginAnonymous]) (nextHandle s) (registered s)
               (from_ui :: loginsInFlight s) (lookupsInFlight s)).
  assert (H1 : step Ev_login s = s1).
  { apply step_quiet; auto. simpl. unfold_handlers. by rewrite Hi. }
  rewrite H1. apply step_quiet; auto.
  simpl. unfold_handlers. simpl. rewrite <-app_assoc. simpl.
  do 2 f_equal. destruct (ctx s). simpl in *. by subst.
Qed.

(** ** More on the user directory *)

(** X12: once a login has resolved to a truthy token, the user's own id is
    cached for good: after any later events, [getUserName] on that id
    returns a cached name, issues no lookup and changes nothing. *)
Theorem no_lookup_for_self_after_login (s : Sys) (t : string) (evs : list Event) :
  reachable s → isLoginIn (ctx s) = false → truthy (Some t) = true →
  let me := id (getUserFromToken t) in
  let s1 := run [Ev_login; Ev_loginAnonymous_settles (Resolved t)] s in
  playerNameMapping (ctx s1) !! me = Some (getUserFromToken t) ∧
  ∃ u, getUserName me (run evs s1) = (name u, run evs s1).
Proof.
  intros Hr Hi Ht me s1.
  assert (Hm : playerNameMapping (ctx s1) !! me = Some (getUserFromToken t)).
  { subst s1. simpl. rewrite (step_unfold (Ev_loginAnonymous_settles _)), commit_mapping.
    assert (H1 : loginsInFlight (step Ev_login s) = from_ui :: loginsInFlight s).
    { rewrite step_unfold.
      destruct (commit_frame (Some (ctx s)) (snd (handle Ev_login s)))
        as (_ & _ & -> & _).
      simpl. unfold_handlers. by rewrite Hi. }
    simpl. unfold_handlers. rewrite H1. simpl in *. rewrite Ht. simpl.
    by rewrite lookup_insert_eq. }
  split; [done|].
  assert (Hv : inv s1) by by apply reachable_inv, reachable_run.
  destruct (run_present evs me s1 Hv) as [u Hu]; [by eexists|].
  exists u. by apply getUserName_hit.
Qed.

(** X13: [getUserName] keeps no record of the lookups it has issued:
    on an id that is not cached and names no inherited property, [n]
    calls in a row issue [n] lookups and leave the cells as they were, and
    the next call again returns the raw id. *)
Theorem every_uncached_call_issues_a_lookup (s : Sys) (userId : string) (n : nat) :
  playerNameMapping (ctx s) !! userId = None →
  Object_prototype userId = None →
  let s' := Nat.iter n (λ s, snd (getUserName_js userId s)) s in
  s' = mkSys (ctx s) (trace s ++ replicate n (Call_lookupUser userId)) (nextHandle s)
             (registered s) (loginsInFlight s)
             (replicate n userId ++ lookupsInFlight s) ∧
  fst (getUserName_js userId s') = Some userId.
Proof.
  intros Hm Hp.
  assert (Hn : Nat.iter n (λ s, snd (getUserName_js userId s)) s =
               mkSys (ctx s) (trace s ++ replicate n (Call_lookupUser userId))
                     (nextHandle s) (registered s) (loginsInFlight s)
                     (replicate n userId ++ lookupsInFlight s)).
  { induction n as [|n IH].
    - simpl. rewrite app_nil_r. by destruct s.
    - simpl. rewrite IH, getUserName_js_miss by done. simpl.
      rewrite <-app_assoc. do 2 f_equal.
      clear. induction n as [|n IH]; [done|]. simpl. by rewrite IH. }
  cbv zeta. rewrite Hn. split; [done|].
  by rewrite getUserName_js_miss.
Qed.

(** X14: a lookup that rejects is dropped without a trace. For an id
    that is not cached and names no inherited property: the cells and the
    calls made are as before the lookup settled, the id stays uncached, and
    the next [getUserName] returns the raw id and issues a new lookup. *)
Theorem rejected_lookup_keeps_placeholder (s : Sys) (userId e : string) :
  playerNameMapping (ctx s) !! userId = None →
  Object_prototype userId = None →
  let s1 := snd (getUserName_js userId s) in
  let s2 := step (Ev_lookupUser_settles userId (Rejected e)) s1 in
  s2 = append_trace s [Call_lookupUser userId] ∧
  fst (getUserName_js userId s2) = Some userId ∧
  trace (snd (getUserName_js userId s2))
    = trace s ++ [Call_lookupUser userId; Call_lookupUser userId].
Proof.
  intros Hm Hp. cbv zeta. rewrite (getUserName_js_miss s userId Hm Hp). simpl.
  set (s1 := mkSys _ _ _ _ _ _).
  assert (H2 : step (Ev_lookupUser_settles userId (Rejected e)) s1
               = append_trace s [Call_lookupUser userId]).
  { apply step_quiet; auto. simpl. munfold. simpl.
    rewrite decide_True by set_solver. simpl. by rewrite decide_True. }
  rewrite H2.
  rewrite (getUserName_js_miss (append_trace s _) userId) by done. simpl.
  by rewrite <-app_assoc.
Qed.

(** ** The lobby *)

(** The label of the row of player [p]: the cached name, else the name
    of what the mapping inherits under [p], else the raw id. *)
Lemma Lobby_rows_spec (me : option UserData) (ps : list string) (s : Sys) :
  let m := playerNameMapping (ctx s) in
  let looked_up p :=
    bool_decide (m !! p = None) && bool_decide (Object_prototype p = None) in
  Lobby_rows me ps s =
    (map (λ p, mkRow (bool_decide (Some p = id <$> me))
                     (match m !! p with
                      | Some u => Some (name u)
                      | None => default (Some p) (Object_prototype p)
                      end)) ps,
     mkSys (ctx s)
           (trace s ++ map Call_lookupUser (List.filter looked_up ps))
           (nextHandle s) (registered s) (loginsInFlight s)
           (rev (List.filter looked_up ps) ++ lookupsInFlight s)).
Proof.
  cbv zeta. revert s. induction ps as [|p ps IH]; intros s.
  - simpl. unfold mret, M_ret. rewrite app_nil_r. by destruct s.
  - simpl. unfold mbind, M_bind.
    destruct (playerNameMapping (ctx s) !! p) as [u|] eqn:Hp.
    + rewrite (getUserName_js_hit s p u Hp), IH. unfold mret, M_ret. by simpl.
    + destruct (Object_prototype p) as [n|] eqn:Ho.
      * rewrite (getUserName_js_inherited s p n Hp Ho), IH.
        unfold mret, M_ret. by simpl.
      * rewrite (getUserName_js_miss s p Hp Ho), IH. unfold mret, M_ret. simpl.
        by rewrite <-!app_assoc.
Qed.

Lemma ltb_bool_decide (n m : nat) : (n <? m) = bool_decide (n < m).
Proof.
  destruct (Nat.ltb_spec n m);
    by rewrite ?bool_decide_true, ?bool_decide_false by lia.
Qed.

(** X15: one render of the lobby shows a row per player of the snapshot
    (none without a snapshot), in order, starred exactly for the current
    user. The label is the cached name when the id has an entry in the
    name mapping; otherwise, when the id names a property the mapping
    inherits, the name of the inherited value ("Object" for
    "constructor", nothing for "__proto__"); otherwise the raw id. The
    render issues one lookup per row of the last kind, in row order, and
    changes no cell. The start button is disabled exactly below two
    players. *)
Theorem Lobby_rows_and_lookups (s : Sys) :
  let ps := match playerState (ctx s) with Some st => players st | None => [] end in
  let m := playerNameMapping (ctx s) in
  let looked_up p :=
    bool_decide (m !! p = None) && bool_decide (Object_prototype p = None) in
  fst (Lobby s) =
    (map (λ p, mkRow (bool_decide (Some p = id <$> user (ctx s)))
                     (match m !! p with
                      | Some u => Some (name u)
                      | None => default (Some p) (Object_prototype p)
                      end)) ps,
     bool_decide (length ps < 2)) ∧
  ctx (snd (Lobby s)) = ctx s ∧
  trace (snd (Lobby s)) =
    trace s ++ map Call_lookupUser (List.filter looked_up ps).
Proof.
  cbv zeta. unfold Lobby. unfold mbind, M_bind, get.
  rewrite Lobby_rows_spec. simpl. repeat split.
  f_equal. unfold disableStartGame, playerCount.
  destruct (playerState (ctx s)); apply ltb_bool_decide.
Qed.

(** ** Who asks for a login *)

Lemma handle_no_login_request (ev : Event) (s : Sys) :
  callbacks_inv s → is_login_call ev = false →
  login_requests (trace (snd (handle ev s))) = login_requests (trace s).
Proof.
  intros Hc Hs.
  destruct ev; try discriminate Hs; simpl; unfold_handlers;
    repeat (case_match; simplify_eq/=);
    try match goal with
        | H : registered _ !! _ = Some _ |- _ =>
            rewrite Hc in H; case_decide; simplify_eq/=
        end;
    rewrite ?login_requests_app; unfold login_requests; simpl; lia.
Qed.

(** X16: only [login] and [createGame] ever ask for a login. In a
    reachable state no other event issues a [loginAnonymous] request: not
    [connect] or [joinGame] without a token (they hand the absent token to
    the transport), not an action, not a callback, not a render. *)
Theorem only_login_calls_request_login (s : Sys) (ev : Event) :
  reachable s → is_login_call ev = false →
  login_requests (trace (step ev s)) = login_requests (trace s).
Proof.
  intros Hr Hs. destruct (reachable_inv s Hr) as [Hc _].
  rewrite step_unfold.
  destruct (commit_frame (Some (ctx s)) (snd (handle ev s)))
    as (_ & _ & _ & _ & tr & -> & Hq).
  rewrite login_requests_app, Hq, handle_no_login_request by done. lia.
Qed.

(** ** Reconnecting *)


(** ** A login that resolves *)

(** A render whose connection error and turn are those of the previous
    render runs at most the token effect. *)
Lemma commit_token_only (c : Ctx) (s : Sys) :
  connectionError c = connectionError (ctx s) →
  turn_of (playerState c) = turn_of (playerState (ctx s)) →
  snd (commit (Some c) s) =
  snd (useEffect (Some (token c)) (token (ctx s)) (token_effect (ctx s)) s).
Proof.
  intros He Hp. unfold commit. munfold.
  rewrite (useEffect_noop _ _ _ s) by (left; simpl; by rewrite He).
  change (token <$> Some c) with (Some (token c)).
  destruct (useEffect (Some (token c)) (token (ctx s)) (token_effect (ctx s)) s)
    as [[] s1] eqn:E.
  rewrite (useEffect_noop _ _ _ s1); [done|]. left. simpl. by rewrite Hp.
Qed.

(** X18: a [login] that is let in and whose request resolves stores the
    token it got and makes one call, the login request. With a truthy token
    [user] becomes the decoded record and the record is written into the
    name mapping under its id; with the empty token [user] and the name
    mapping stay as they were. [loggingIn] ends false. *)
Theorem resolved_login_stores_token (s : Sys) (t : string) :
  isLoginIn (ctx s) = false →
  run [Ev_login; Ev_loginAnonymous_settles (Resolved t)] s =
    mkSys (setLoggingIn (Some false)
             (setToken (Some t)
                (if truthy (Some t) then
                   setPlayerNameMapping
                     (λ current, <[id (getUserFromToken t) := getUserFromToken t]> current)
                     (setUserInfo (Some (getUserFromToken t)) (ctx s))
                 else ctx s)))
          (trace s ++ [Call_loginAnonymous])
          (nextHandle s) (registered s) (loginsInFlight s) (lookupsInFlight s).
Proof.
  intros Hi. simpl.
  set (s1 := mkSys (set_isLoginIn true (setLoggingIn (Some true) (ctx s)))
               (trace s ++ [Call_loginAnonymous]) (nextHandle s) (registered s)
               (from_ui :: loginsInFlight s) (lookupsInFlight s)).
  assert (H1 : step Ev_login s = s1).
  { apply step_quiet; auto. simpl. unfold_handlers. by rewrite Hi. }
  rewrite H1. rewrite step_unfold.
  assert (H2 : snd (handle (Ev_loginAnonymous_settles (Resolved t)) s1) =
    mkSys (setLoggingIn (Some false)
             (setToken (Some t)
                (if truthy (Some t) then
                   setPlayerNameMapping
                     (λ current, <[id (getUserFromToken t) := getUserFromToken t]> current)
                     (setUserInfo (Some (getUserFromToken t)) (ctx s))
                 else ctx s)))
          (trace s ++ [Call_loginAnonymous])
          (nextHandle s) (registered s) (loginsInFlight s) (lookupsInFlight s)).
  { simpl. unfold_handlers.
    destruct (negb (String.eqb t "")); simpl; f_equal;
      destruct (ctx s); simpl in *; by subst. }
  rewrite H2. rewrite commit_token_only.
  2: { simpl. by destruct (negb (String.eqb t "")). }
  2: { simpl. by destruct (negb (String.eqb t "")). }
  unfold useEffect, token_effect. munfold. simpl.
  case_decide; [done|].
  destruct (negb (String.eqb t "")) eqn:Ht; simpl; rewrite ?Ht; done.
Qed.

(** ** Creating two games *)

(** X19: the token a [createGame] obtained is reused: when a first
    [createGame] without token logged in with the truthy token [t], a
    second [createGame] issues its create-room request with [t] and no
    further login request. *)
Theorem second_createGame_reuses_token
    (s : Sys) (t : string) (oc1 oc2 ologin2 : Outcome string) :
  truthy (token (ctx s)) = false → isLoginIn (ctx s) = false →
  truthy (Some t) = true →
  let s1 := snd (createGame (Resolved t) oc1 s) in
  let s2 := snd (createGame ologin2 oc2 s1) in
  token (ctx s1) = Some t ∧
  trace s2 = trace s ++ [Call_loginAnonymous;
                         Call_create t IInitializeRequest_default;
                         Call_create t IInitializeRequest_default].
Proof.
  intros Htok Hi Ht. cbv zeta.
  assert (H1 : snd (createGame (Resolved t) oc1 s) =
    mkSys (setLoggingIn (Some false) (set_isLoginIn false
             (setToken (Some t)
                (setPlayerNameMapping
                   (λ current, <[id (getUserFromToken t) := getUserFromToken t]> current)
                   (setUserInfo (Some (getUserFromToken t))
                      (set_isLoginIn true (setLoggingIn (Some true) (ctx s))))))))
          (trace s ++ [Call_loginAnonymous; Call_create t IInitializeRequest_default])
          (nextHandle s) (registered s) (loginsInFlight s) (lookupsInFlight s)).
  { rewrite createGame_unfold, Htok. unfold_handlers. rewrite Hi. simpl in *.
    rewrite Ht. simpl. rewrite Ht. simpl. by rewrite <-app_assoc. }
  rewrite H1. split; [done|].
  rewrite createGame_unfold. simpl in *. rewrite Ht.
  unfold client_create. munfold. simpl. by rewrite <-app_assoc.
Qed.

End Provider.

(** * The properties at concrete inputs *)

Lemma mount_reachable (decode : string → UserData) (tok : option string)
    (m : option (gmap string UserData)) :
  reachable decode (mount decode tok m).
Proof. exists tok, m, []. reflexivity. Qed.

Lemma run_reachable (decode : string → UserData) (tok : option string)
    (m : option (gmap string UserData)) (evs : list Event) :
  reachable decode (run decode evs (mount decode tok m)).
Proof. exists tok, m, evs. reflexivity. Qed.

(** C1, as the claim states it, fails: after two consecutive [connect]
    calls the stored handle is the second connection object (1) and the
    first (0) is superseded, with no snapshot and no error stored; yet when
    the first one's callbacks fire late, the update callback stores its
    snapshot and the failure callback stores its error. The same happens
    after connect, disconnect, connect. *)
Lemma stale_callbacks_overwrite_state :
  let s := run sample_decode [Ev_connect "r1"; Ev_connect "r2"]
               (mount sample_decode None None) in
  let s' := run sample_decode [Ev_connect "r1"; Ev_disconnect; Ev_connect "r2"]
                (mount sample_decode None None) in
  (connection (ctx s) = Some 1 ∧
   playerState (ctx s) = None ∧
   connectionError (ctx s) = None ∧
   playerState (ctx (step sample_decode (Ev_push_update 0 snapshot_A) s))
     = Some snapshot_A ∧
   connectionError (ctx (step sample_decode (Ev_push_failure 0 failure_X) s))
     = Some failure_X) ∧
  (connection (ctx s') = Some 1 ∧
   playerState (ctx s') = None ∧
   connectionError (ctx s') = None ∧
   playerState (ctx (step sample_decode (Ev_push_update 0 snapshot_A) s'))
     = Some snapshot_A ∧
   connectionError (ctx (step sample_decode (Ev_push_failure 0 failure_X) s'))
     = Some failure_X).
Proof. vm_compute. repeat split. Qed.

(** The amended C1 at connect "r1", then disconnect and connect "r2". *)
Lemma callbacks_write_regardless_of_handle_witness :
  let s0 := mount sample_decode None None in
  let s := run sample_decode [Ev_disconnect; Ev_connect "r2"]
               (step sample_decode (Ev_connect "r1") s0) in
  reachable sample_decode s0 ∧
  connection (ctx s) = Some 1 ∧
  playerState (ctx (step sample_decode (Ev_push_update 0 snapshot_A) s))
    = Some snapshot_A ∧
  connectionError (ctx (step sample_decode (Ev_push_failure 0 failure_X) s))
    = Some failure_X.
Proof.
  cbv zeta.
  pose proof (callbacks_write_regardless_of_handle sample_decode
                (mount sample_decode None None) "r1"
                [Ev_disconnect; Ev_connect "r2"] snapshot_A failure_X
                (mount_reachable sample_decode None None)) as H.
  cbv zeta in H. destruct H as (Hu & _ & _ & _ & Hf & _).
  split; [apply mount_reachable|]. split; [reflexivity|]. split; assumption.
Defined.





(** C7 at a fresh provider: [login], then [login] again and a
    [createGame] without token while the first request is pending; one
    login request in all. *)
Lemma login_is_reentrant_safe_witness :
  let s := mount sample_decode None None in
  let evs := [Ev_login; Ev_createGame (Resolved "room"); Ev_getUserName "A"] in
  reachable sample_decode s ∧
  Forall (λ ev, is_login_settle ev = false) evs ∧
  login_requests (trace (run sample_decode evs (step sample_decode Ev_login s))) = 1.
Proof.
  cbv zeta.
  assert (Hall : Forall (λ ev, is_login_settle ev = false)
                   [Ev_login; Ev_createGame (Resolved "room"); Ev_getUserName "A"])
    by (repeat constructor).
  pose proof (login_is_reentrant_safe sample_decode (mount sample_decode None None)
                _ (Resolved "tok") (mount_reachable sample_decode None None) Hall) as H.
  assert (Hl : loginsInFlight (mount sample_decode None None) = [])
    by reflexivity.
  rewrite Hl in H. cbv zeta in H. destruct H as (_ & _ & H3 & _).
  split; [apply mount_reachable|]. split; [exact Hall|].
  vm_compute in H3. vm_compute. exact H3.
Defined.

(** * The scenarios of the specification, run on the model *)

(** Scenario A: no token in storage, then [login]. The token is stored,
    [user] is the decoded record, one login request was made, and the
    user's own name is served from the mapping without a lookup. *)
Example scenario_login :
  let s := run sample_decode [Ev_login; Ev_loginAnonymous_settles (Resolved "tok")]
               (mount sample_decode None None) in
  token (ctx s) = Some "tok" ∧
  user (ctx s) = Some (mkUserData "tok" "user-tok") ∧
  trace s = [Call_loginAnonymous] ∧
  getUserName "tok" s = ("user-tok", s).
Proof. vm_compute. repeat split. Qed.

(** Scenario B: [createGame] with no token logs in, then creates the room
    with the default payload and returns the room id. *)
Example scenario_createGame_without_token :
  let s := mount sample_decode None None in
  fst (createGame sample_decode (Resolved "tok") (Resolved "ROOM1") s)
    = Resolved (Some "ROOM1") ∧
  trace (snd (createGame sample_decode (Resolved "tok") (Resolved "ROOM1") s))
    = [Call_loginAnonymous; Call_create "tok" IInitializeRequest_default].
Proof. vm_compute. repeat split. Qed.

(** Scenario C: [joinGame "ROOM1"] connects, the join action answers with a
    failure. The handle stays stored; the trace holds the two calls only. *)
Example scenario_joinGame_failure :
  let s := step sample_decode
             (Ev_joinGame "ROOM1" (Resolved (Response_error "room is full")))
             (mount sample_decode (Some "tok") None) in
  connection (ctx s) = Some 0 ∧
  trace s = [Call_connect (Some "tok") "ROOM1" 0; Call_joinGame 0].
Proof. vm_compute. repeat split. Qed.

(** Scenario D: [disconnect] with no connection. *)
Example scenario_disconnect_idle :
  step sample_decode Ev_disconnect (mount sample_decode None None)
    = mount sample_decode None None.
Proof. vm_compute. reflexivity. Qed.

(** Scenario E with a cached name: the turn goes from "A" to "B" after the
    lookup of "B" resolved to Bob. *)
Example scenario_turn_change_cached :
  let s := run sample_decode
             [Ev_connect "r1"; Ev_push_update 0 snapshot_A;
              Ev_getUserName "B";
              Ev_lookupUser_settles "B" (Resolved (mkUserData "B" "Bob"));
              Ev_push_update 0 snapshot_B]
             (mount sample_decode None None) in
  toasts (trace s) = [Toast_info "it is A's turn"; Toast_info "it is Bob's turn"].
Proof. vm_compute. reflexivity. Qed.

(** The generic response handling: a failing [startGame] shows its message
    once. *)
Example scenario_startGame_failure :
  let s := run sample_decode
             [Ev_connect "r1"; Ev_startGame (Resolved (Response_error "not enough players"))]
             (mount sample_decode (Some "tok") None) in
  toasts (trace s) = [Toast_error "not enough players"].
Proof. vm_compute. reflexivity. Qed.

(** * The further properties at concrete inputs *)

(** A provider connected to room "r1". *)
Lemma actions_after_disconnect_are_dropped_witness :
  let s := run sample_decode [Ev_connect "r1"] (mount sample_decode None None) in
  let evs := [Ev_startGame (Resolved Response_ok);
              Ev_playCard 3 (Resolved (Response_error "not your turn"));
              Ev_drawCard (Rejected "timeout")] in
  Forall (λ ev, is_action ev = true) evs ∧
  run sample_decode evs (step sample_decode Ev_disconnect s)
    = step sample_decode Ev_disconnect s.
Proof.
  cbv zeta.
  assert (Hall : Forall (λ ev, is_action ev = true)
                   [Ev_startGame (Resolved Response_ok);
                    Ev_playCard 3 (Resolved (Response_error "not your turn"));
                    Ev_drawCard (Rejected "timeout")]) by (repeat constructor).
  split; [exact Hall|].
  exact (actions_after_disconnect_are_dropped sample_decode _ _ Hall).
Defined.

Lemma actions_after_endGame_use_closed_handle_witness :
  let s := run sample_decode [Ev_connect "r1"] (mount sample_decode None None) in
  connection (ctx s) = Some 0 ∧
  trace (step sample_decode (Ev_playCard 7 (Resolved Response_ok))
           (step sample_decode Ev_endGame s))
    = [Call_connect None "r1" 0; Call_disconnect 0; Call_playCard 0 7].
Proof.
  cbv zeta. split; [reflexivity|].
  destruct (actions_after_endGame_use_closed_handle sample_decode
              (run sample_decode [Ev_connect "r1"] (mount sample_decode None None))
              0 7 (Resolved Response_ok) eq_refl) as (_ & _ & H & _).
  vm_compute in H. vm_compute. exact H.
Defined.

Lemma loggingIn_iff_login_pending_witness :
  let s := run sample_decode [Ev_login] (mount sample_decode None None) in
  reachable sample_decode s ∧
  (loggingIn (ctx s) = Some true ↔ loginsInFlight s ≠ []).
Proof.
  cbv zeta. split; [apply run_reachable|].
  exact (loggingIn_iff_login_pending sample_decode _
           (run_reachable sample_decode None None [Ev_login])).
Defined.

Lemma stored_handle_is_latest_witness :
  let s := run sample_decode [Ev_connect "r1"; Ev_connect "r2"]
               (mount sample_decode None None) in
  reachable sample_decode s ∧
  connection (ctx s) = Some 1 ∧
  nextHandle s = 2 ∧
  registered s !! 1 = Some connect_callbacks.
Proof.
  cbv zeta. split; [apply run_reachable|]. split; [reflexivity|].
  exact (stored_handle_is_latest sample_decode
           (run sample_decode [Ev_connect "r1"; Ev_connect "r2"]
              (mount sample_decode None None)) 1
           (run_reachable sample_decode None None _) eq_refl).
Defined.

Lemma user_is_decoded_token_witness :
  let s := run sample_decode [Ev_login; Ev_loginAnonymous_settles (Resolved "tok")]
               (mount sample_decode None None) in
  reachable sample_decode s ∧
  token (ctx s) = Some "tok" ∧
  truthy (Some "tok") = true ∧
  user (ctx s) = Some (sample_decode "tok").
Proof.
  cbv zeta. split; [apply run_reachable|]. split; [reflexivity|].
  split; [reflexivity|].
  exact (user_is_decoded_token sample_decode
           (run sample_decode [Ev_login; Ev_loginAnonymous_settles (Resolved "tok")]
              (mount sample_decode None None)) "tok"
           (run_reachable sample_decode None None _) eq_refl eq_refl).
Defined.

Lemma connecting_until_callback_witness :
  let evs := [Ev_disconnect; Ev_endGame; Ev_getUserName "A"] in
  Forall (λ ev, is_push ev = false) evs ∧
  connecting (ctx (run sample_decode evs
                     (step sample_decode (Ev_connect "r1")
                        (mount sample_decode None None)))) = Some true.
Proof.
  cbv zeta.
  assert (Hall : Forall (λ ev, is_push ev = false)
                   [Ev_disconnect; Ev_endGame; Ev_getUserName "A"])
    by (repeat constructor).
  split; [exact Hall|].
  exact (connecting_until_callback sample_decode _ "r1" _ Hall).
Defined.

Lemma connection_failure_is_stored_and_shown_witness :
  let s := run sample_decode [Ev_connect "r1"] (mount sample_decode None None) in
  reachable sample_decode s ∧
  0 < nextHandle s ∧
  connectionError (ctx s) ≠ Some failure_X ∧
  trace (step sample_decode (Ev_push_failure 0 failure_X) s)
    = [Call_connect None "r1" 0; Toast_error "connection lost"].
Proof.
  cbv zeta.
  assert (Hlt : 0 < nextHandle (run sample_decode [Ev_connect "r1"]
                                  (mount sample_decode None None)))
    by (vm_compute; lia).
  assert (Hne : connectionError (ctx (run sample_decode [Ev_connect "r1"]
                                        (mount sample_decode None None)))
                ≠ Some failure_X) by discriminate.
  split; [apply run_reachable|]. split; [exact Hlt|]. split; [exact Hne|].
  rewrite (connection_failure_is_stored_and_shown sample_decode _ 0 failure_X
             (run_reachable sample_decode None None _) Hlt Hne).
  reflexivity.
Defined.

Lemma login_guard_released_when_settled_witness :
  let s := run sample_decode [Ev_login] (mount sample_decode None None) in
  let s1 := step sample_decode (Ev_loginAnonymous_settles (Rejected "offline")) s in
  reachable sample_decode s ∧
  loginsInFlight s ≠ [] ∧
  loginsInFlight s1 = [] ∧
  loggingIn (ctx s1) = Some false ∧
  login_requests (trace (step sample_decode Ev_login s1)) = 2.
Proof.
  cbv zeta.
  assert (Hp : loginsInFlight (run sample_decode [Ev_login]
                                 (mount sample_decode None None)) ≠ [])
    by discriminate.
  destruct (login_guard_released_when_settled sample_decode _ (Rejected "offline")
              (run_reachable sample_decode None None [Ev_login]) Hp)
    as (H1 & _ & H3 & _ & H5).
  split; [apply run_reachable|]. split; [exact Hp|]. split; [exact H1|].
  split; [exact H3|]. vm_compute in H5. vm_compute. exact H5.
Defined.

Lemma failed_login_leaves_session_untouched_witness :
  let s := mount sample_decode None None in
  let s' := run sample_decode [Ev_login; Ev_loginAnonymous_settles (Rejected "offline")] s in
  isLoginIn (ctx s) = false ∧
  token (ctx s') = None ∧
  user (ctx s') = None ∧
  trace s' = [Call_loginAnonymous; Console_error "offline"].
Proof.
  cbv zeta. split; [reflexivity|].
  rewrite (failed_login_leaves_session_untouched sample_decode
             (mount sample_decode None None) "offline" eq_refl).
  repeat split.
Defined.

Lemma no_lookup_for_self_after_login_witness :
  let s := mount sample_decode None None in
  let s1 := run sample_decode [Ev_login; Ev_loginAnonymous_settles (Resolved "tok")] s in
  reachable sample_decode s ∧
  isLoginIn (ctx s) = false ∧
  truthy (Some "tok") = true ∧
  playerNameMapping (ctx s1) !! "tok" = Some (sample_decode "tok").
Proof.
  cbv zeta. split; [apply mount_reachable|]. split; [reflexivity|].
  split; [reflexivity|].
  destruct (no_lookup_for_self_after_login sample_decode
              (mount sample_decode None None) "tok" [Ev_getUserName "tok"]
              (mount_reachable sample_decode None None) eq_refl eq_refl)
    as [H _].
  exact H.
Defined.

Lemma every_uncached_call_issues_a_lookup_witness :
  let s := mount sample_decode None None in
  playerNameMapping (ctx s) !! "B" = None ∧
  Object_prototype "B" = None ∧
  trace (Nat.iter 3 (λ s, snd (getUserName_js "B" s)) s)
    = [Call_lookupUser "B"; Call_lookupUser "B"; Call_lookupUser "B"].
Proof.
  cbv zeta.
  assert (Hm : playerNameMapping (ctx (mount sample_decode None None)) !! "B" = None)
    by (vm_compute; reflexivity).
  assert (Hp : Object_prototype "B" = None) by reflexivity.
  split; [exact Hm|]. split; [exact Hp|].
  destruct (every_uncached_call_issues_a_lookup
              (mount sample_decode None None) "B" 3 Hm Hp) as [H _].
  cbv zeta in H. rewrite H. reflexivity.
Defined.

Lemma rejected_lookup_keeps_placeholder_witness :
  let s := mount sample_decode None None in
  let s2 := step sample_decode (Ev_lookupUser_settles "B" (Rejected "offline"))
              (snd (getUserName_js "B" s)) in
  playerNameMapping (ctx s) !! "B" = None ∧
  Object_prototype "B" = None ∧
  s2 = append_trace s [Call_lookupUser "B"] ∧
  fst (getUserName_js "B" s2) = Some "B".
Proof.
  cbv zeta.
  assert (Hm : playerNameMapping (ctx (mount sample_decode None None)) !! "B" = None)
    by (vm_compute; reflexivity).
  assert (Hp : Object_prototype "B" = None) by reflexivity.
  destruct (rejected_lookup_keeps_placeholder sample_decode _ "B" "offline" Hm Hp)
    as (H1 & H2 & _).
  split; [exact Hm|]. split; [exact Hp|]. split; [exact H1|exact H2].
Defined.

Lemma only_login_calls_request_login_witness :
  let s := mount sample_decode None None in
  let ev := Ev_joinGame "ROOM1" (Resolved Response_ok) in
  reachable sample_decode s ∧
  is_login_call ev = false ∧
  login_requests (trace (step sample_decode ev s)) = login_requests (trace s).
Proof.
  cbv zeta. split; [apply mount_reachable|]. split; [reflexivity|].
  exact (only_login_calls_request_login sample_decode
           (mount sample_decode None None) (Ev_joinGame "ROOM1" (Resolved Response_ok))
           (mount_reachable sample_decode None None) eq_refl).
Defined.


Lemma resolved_login_stores_token_witness :
  let s := mount sample_decode (Some "old") None in
  let s' := run sample_decode [Ev_login; Ev_loginAnonymous_settles (Resolved "")] s in
  isLoginIn (ctx s) = false ∧
  token (ctx s') = Some "" ∧
  user (ctx s') = Some (sample_decode "old").
Proof.
  cbv zeta. split; [reflexivity|].
  rewrite (resolved_login_stores_token sample_decode
             (mount sample_decode (Some "old") None) "" eq_refl).
  split; reflexivity.
Defined.

Lemma second_createGame_reuses_token_witness :
  let s := mount sample_decode None None in
  let s1 := snd (createGame sample_decode (Resolved "tok") (Resolved "ROOM1") s) in
  let s2 := snd (createGame sample_decode (Rejected "unused") (Resolved "ROOM2") s1) in
  truthy (token (ctx s)) = false ∧
  isLoginIn (ctx s) = false ∧
  truthy (Some "tok") = true ∧
  trace s2 = [Call_loginAnonymous;
              Call_create "tok" IInitializeRequest_default;
              Call_create "tok" IInitializeRequest_default].
Proof.
  cbv zeta.
  destruct (second_createGame_reuses_token sample_decode
              (mount sample_decode None None) "tok"
              (Resolved "ROOM1") (Resolved "ROOM2") (Rejected "unused")
              eq_refl eq_refl eq_refl) as [_ H].
  repeat (split; [reflexivity|]). vm_compute in H. vm_compute. exact H.
Defined.

(** A lobby with three players after the login of "tok": "A" is not
    cached and is looked up, "constructor" shows the name of the inherited
    value and is not looked up, "tok" shows the cached name with the star. *)
Example scenario_lobby_rows :
  let s := run sample_decode
             [Ev_login; Ev_loginAnonymous_settles (Resolved "tok"); Ev_connect "r1";
              Ev_push_update 0 (mkSnapshot None ["A"; "constructor"; "tok"] 0)]
             (mount sample_decode None None) in
  fst (Lobby s) = ([mkRow false (Some "A"); mkRow false (Some "Object");
                    mkRow true (Some "user-tok")], false) ∧
  trace (snd (Lobby s)) = trace s ++ [Call_lookupUser "A"].
Proof. vm_compute. repeat split. Qed.
